(** * Tic Tac Toe (tkinter): the game engine of [tic_tac_toe_gui.py]

    A shallow embedding of the class [TicTacToeApp] and the properties of
    its handlers.  The attributes of the object are the fields of the
    record [App]; every method is a computation in a state-and-exception
    monad over [App]; the Tk main loop is a step relation that dispatches
    events to the handlers.  The handlers come twice: with every dialog
    closed before any timer fires ([on_button_click], [dispatch]), and
    with timers that fire while a dialog is open ([on_button_click_under],
    [dialog_open], [modal_dispatch]). *)

From Stdlib Require Import ZArith Lia Sorted.
From stdpp Require Import base list strings.

Local Open Scope string_scope.

(** ** Python values and lists *)

(** The only exception the handlers can raise. *)
Inductive exn : Type := IndexError.

Inductive result (A : Type) : Type :=
| Ok (a : A)
| Raise (e : exn).
Arguments Ok {A} a.
Arguments Raise {A} e.

Module Py.

(** [l[i]] resolves its subscript as CPython does: a negative subscript
    is counted from the end, anything still out of range is an
    [IndexError]. *)
Definition norm_index (len : nat) (i : Z) : option nat :=
  let j := (if i <? 0 then i + Z.of_nat len else i)%Z in
  if ((j <? 0) || (Z.of_nat len <=? j))%Z then None else Some (Z.to_nat j).

Definition getitem {A} (l : list A) (i : Z) : result A :=
  match norm_index (length l) i with
  | Some n => match l !! n with
              | Some x => Ok x
              | None => Raise IndexError
              end
  | None => Raise IndexError
  end.

Definition setitem {A} (l : list A) (i : Z) (v : A) : result (list A) :=
  match norm_index (length l) i with
  | Some n => Ok (<[n:=v]> l)
  | None => Raise IndexError
  end.

(** [enumerate(l)], counting from [k]. *)
Fixpoint enumerate_from {A} (k : Z) (l : list A) : list (Z * A) :=
  match l with
  | [] => []
  | x :: l' => (k, x) :: enumerate_from (k + 1) l'
  end.

Definition enumerate {A} (l : list A) : list (Z * A) := enumerate_from 0 l.

(** [x in l] on a list of strings. *)
Definition contains (x : string) (l : list string) : bool :=
  existsb (String.eqb x) l.

(** [random.choice(seq)] is [seq[k]] for a drawn [k < len(seq)]; the
    draw is the argument [r], reduced modulo the length. *)
Definition choice {A} (r : nat) (seq : list A) : result A :=
  match seq with
  | [] => Raise IndexError
  | _ => getitem seq (Z.of_nat (r mod length seq))
  end.

End Py.

(** ** The application object *)

(** Callbacks handed to [root.after]. *)
Inductive callback : Type := Computer_move.

Record App : Type := mkApp {
  current_player : string;
  board : list string;
  buttons : list string;          (* the text of each Button widget *)
  status_label : string;          (* the text of the status Label *)
  game_mode : string;
  shown : list (string * string); (* messagebox.showinfo (title, message), oldest first *)
  after_queue : list (Z * callback) (* root.after (delay, callback), oldest first *)
}.

Definition with_current_player (v : string) (s : App) : App :=
  mkApp v (board s) (buttons s) (status_label s) (game_mode s) (shown s) (after_queue s).
Definition with_board (v : list string) (s : App) : App :=
  mkApp (current_player s) v (buttons s) (status_label s) (game_mode s) (shown s) (after_queue s).
Definition with_buttons (v : list string) (s : App) : App :=
  mkApp (current_player s) (board s) v (status_label s) (game_mode s) (shown s) (after_queue s).
Definition with_status_label (v : string) (s : App) : App :=
  mkApp (current_player s) (board s) (buttons s) v (game_mode s) (shown s) (after_queue s).
Definition with_game_mode (v : string) (s : App) : App :=
  mkApp (current_player s) (board s) (buttons s) (status_label s) v (shown s) (after_queue s).
Definition with_shown (v : list (string * string)) (s : App) : App :=
  mkApp (current_player s) (board s) (buttons s) (status_label s) (game_mode s) v (after_queue s).
Definition with_after_queue (v : list (Z * callback)) (s : App) : App :=
  mkApp (current_player s) (board s) (buttons s) (status_label s) (game_mode s) (shown s) v.

(** ** The monad of the methods

    A method maps the object to the object it leaves behind and either a
    value or the exception it raised; what was assigned before a raise
    stays assigned. *)

Definition M (A : Type) : Type := App -> App * result A.

Definition ret {A} (a : A) : M A := fun s => (s, Ok a).

Definition bind {A B} (m : M A) (k : A -> M B) : M B :=
  fun s => match m s with
           | (s', Ok a) => k a s'
           | (s', Raise e) => (s', Raise e)
           end.

Definition get {A} (f : App -> A) : M A := fun s => (s, Ok (f s)).
Definition modify (f : App -> App) : M unit := fun s => (f s, Ok tt).
Definition lift {A} (f : App -> result A) : M A := fun s => (s, f s).

Declare Scope py_scope.
Delimit Scope py_scope with py.
Notation "'let*' x ':=' m 'in' k" := (bind m (fun x => k))
  (at level 10, x name, m at level 100, k at level 200) : py_scope.
Notation "m '>>' k" := (bind m (fun _ => k))
  (at level 90, right associativity) : py_scope.
Local Open Scope py_scope.

(** ** Widget and toolkit calls *)

(** [messagebox.showinfo(title, message)], for a dialog that the user
    closes before any timer fires: the dialog is recorded and the handler
    goes on.  What can go on while a dialog stays open is [dialog_open],
    further down. *)
Definition showinfo (title message : string) : M unit :=
  modify (fun s => with_shown (shown s ++ [(title, message)]) s).

(** [self.root.after(ms, f)]. *)
Definition root_after (ms : Z) (f : callback) : M unit :=
  modify (fun s => with_after_queue (after_queue s ++ [(ms, f)]) s).

(** [self.status_label.config(text=t)]. *)
Definition status_label_config (t : string) : M unit :=
  modify (with_status_label t).

(** [self.board[index]]. *)
Definition board_getitem (index : Z) : M string :=
  lift (fun s => Py.getitem (board s) index).

(** [self.board[index] = v]. *)
Definition board_setitem (index : Z) (v : string) : M unit :=
  fun s => match Py.setitem (board s) index v with
           | Ok b => (with_board b s, Ok tt)
           | Raise e => (s, Raise e)
           end.

(** [self.buttons[index].config(text=t)]. *)
Definition button_config (index : Z) (t : string) : M unit :=
  fun s => match Py.setitem (buttons s) index t with
           | Ok b => (with_buttons b s, Ok tt)
           | Raise e => (s, Raise e)
           end.

(** ** The methods of [TicTacToeApp] *)

(** [__init__] followed by [setup_ui]: nine buttons with empty text. *)
Definition init : App :=
  {| current_player := "X";
     board := replicate 9 "";
     buttons := replicate 9 "";
     status_label := "X's Turn";
     game_mode := "PvE";
     shown := [];
     after_queue := [] |}.

Definition reset_game : M unit :=
  modify (with_current_player "X") >>
  modify (with_board (replicate 9 "")) >>
  status_label_config "X's Turn" >>
  modify (fun s => with_buttons (map (fun _ => "") (buttons s)) s).

Definition set_mode (mode : string) : M unit :=
  modify (with_game_mode mode) >>
  showinfo "Mode Changed" ("Game Mode set to: " ++ mode) >>
  reset_game.

Definition switch_player : M unit :=
  (let* p := get current_player in
   if p =? "X" then modify (with_current_player "O")
   else modify (with_current_player "X")) >>
  let* p := get current_player in
  status_label_config (p ++ "'s Turn").

Definition winning_combos : list (Z * Z * Z) :=
  [ (0, 1, 2); (3, 4, 5); (6, 7, 8);
    (0, 3, 6); (1, 4, 7); (2, 5, 8);
    (0, 4, 8); (2, 4, 6) ]%Z.

(** The [for] loop of [check_winner]; [and] evaluates its operands from
    the left and stops at the first false one. *)
Fixpoint check_winner_loop (combos : list (Z * Z * Z)) (player : string) : M bool :=
  match combos with
  | [] => ret false
  | (a, b, c) :: rest =>
      let* x := board_getitem a in
      if x =? player then
        let* y := board_getitem b in
        if y =? player then
          let* z := board_getitem c in
          if z =? player then ret true
          else check_winner_loop rest player
        else check_winner_loop rest player
      else check_winner_loop rest player
  end.

Definition check_winner (player : string) : M bool :=
  check_winner_loop winning_combos player.

Definition on_button_click (index : Z) : M unit :=
  let* cell := board_getitem index in
  if negb (cell =? "") then ret tt
  else
    let* p := get current_player in
    board_setitem index p >>
    button_config index p >>
    let* won := check_winner p in
    if won then
      showinfo "Game Over" ("Player " ++ p ++ " wins!") >>
      reset_game
    else
      let* b := get board in
      if negb (Py.contains "" b) then
        showinfo "Game Over" "It's a Draw!" >>
        reset_game
      else
        switch_player >>
        let* mode := get game_mode in
        let* q := get current_player in
        if (mode =? "PvE") && (q =? "O") then root_after 500 Computer_move
        else ret tt.

(** [[i for i, x in enumerate(self.board) if x == ""]]. *)
Definition available_moves (b : list string) : list Z :=
  map fst (List.filter (fun ix => snd ix =? "") (Py.enumerate b)).

(** [r] is the draw of [random.choice]. *)
Definition computer_move (r : nat) : M unit :=
  let* b := get board in
  let moves := available_moves b in
  match moves with
  | [] => ret tt
  | _ => let* move := lift (fun _ => Py.choice r moves) in
         on_button_click move
  end.

(** ** The main loop

    [dispatch] runs one callback to its end, every dialog it opens being
    closed before any timer fires; an exception that leaves a callback is
    reported by Tk and the loop goes on with the object as the callback
    left it.  [modal_dispatch], further down, is the loop with timers
    that fire while a dialog is open. *)

Inductive event : Type :=
| Click (index : Z)          (* a grid button: [on_button_click(index)] *)
| Reset_clicked              (* the Reset button: [reset_game()] *)
| Mode_selected (mode : string) (* a Settings entry: [set_mode(mode)] *)
| Timer (r : nat).           (* the oldest [after] timer fires; [r] is its random draw *)

Definition run {A} (m : M A) (s : App) : App := fst (m s).

Definition dispatch (e : event) (s : App) : option App :=
  match e with
  | Click index => Some (run (on_button_click index) s)
  | Reset_clicked => Some (run reset_game s)
  | Mode_selected mode => Some (run (set_mode mode) s)
  | Timer r =>
      match after_queue s with
      | [] => None
      | (_, Computer_move) :: rest =>
          Some (run (computer_move r) (with_after_queue rest s))
      end
  end.

Inductive reachable : App -> Prop :=
| reach_init : reachable init
| reach_step s e s' : reachable s -> dispatch e s = Some s' -> reachable s'.

(** Running a list of events, for the scenarios. *)
Fixpoint run_events (es : list event) (s : App) : option App :=
  match es with
  | [] => Some s
  | e :: es' => match dispatch e s with
                | Some s' => run_events es' s'
                | None => None
                end
  end.

(** ** Vocabulary of the properties *)

(** The cell of board [b] at position [i] holds [m]. *)
Definition cell_is (b : list string) (i : Z) (m : string) : Prop :=
  (0 <= i)%Z /\ b !! Z.to_nat i = Some m.

Definition line_is (b : list string) (m : string) (l : Z * Z * Z) : Prop :=
  let '(i, j, k) := l in cell_is b i m /\ cell_is b j m /\ cell_is b k m.

(** Some fixed line of [b] is all [m]. *)
Definition has_line (b : list string) (m : string) : Prop :=
  exists l, In l winning_combos /\ line_is b m l.

Definition has_empty (b : list string) : Prop := In "" b.


Definition count_mark (m : string) (b : list string) : nat :=
  length (List.filter (String.eqb m) b).

Definition other (p : string) : string := if p =? "X" then "O" else "X".

(** What holds of the object between any two callbacks. *)
Record well_formed (s : App) : Prop := {
  wf_board : length (board s) = 9;
  wf_buttons : length (buttons s) = 9
}.

(** The test of one combination in [check_winner], on cells that exist. *)
Definition cell_eqb (b : list string) (i : Z) (m : string) : bool :=
  match b !! Z.to_nat i with
  | Some c => c =? m
  | None => false
  end.

Definition line_eqb (b : list string) (m : string) (l : Z * Z * Z) : bool :=
  let '(i, j, k) := l in cell_eqb b i m && cell_eqb b j m && cell_eqb b k m.

Definition wins (b : list string) (m : string) : bool :=
  existsb (line_eqb b m) winning_combos.

(** The object right after lines 111-112 of [on_button_click] wrote the
    mark of the current player into cell [n] and onto its button. *)
Definition played (n : nat) (s : App) : App :=
  with_buttons (<[n:=current_player s]> (buttons s))
    (with_board (<[n:=current_player s]> (board s)) s).

(** The object [reset_game] leaves behind. *)
Definition cleared (s : App) : App :=
  {| current_player := "X";
     board := replicate 9 "";
     buttons := map (fun _ => "") (buttons s);
     status_label := "X's Turn";
     game_mode := game_mode s;
     shown := shown s;
     after_queue := after_queue s |}.

Definition win_dialog (p : string) : string * string :=
  ("Game Over", "Player " ++ p ++ " wins!").

Definition draw_dialog : string * string := ("Game Over", "It's a Draw!").

(** The object after the turn was handed over (lines 127-132). *)
Definition handed_over (s : App) : App :=
  let q := other (current_player s) in
  {| current_player := q;
     board := board s;
     buttons := buttons s;
     status_label := q ++ "'s Turn";
     game_mode := game_mode s;
     shown := shown s;
     after_queue :=
       if (game_mode s =? "PvE") && (q =? "O")
       then after_queue s ++ [(500%Z, Computer_move)]
       else after_queue s |}.

(** Lines 114-132 of [on_button_click], as a function of the object,
    every dialog being closed before any timer fires. *)
Definition settle (s : App) : App :=
  let p := current_player s in
  if wins (board s) p then
    cleared (with_shown (shown s ++ [win_dialog p]) s)
  else if negb (Py.contains "" (board s)) then
    cleared (with_shown (shown s ++ [draw_dialog]) s)
  else handed_over s.

(** What every reachable object satisfies. *)
Record invariant (s : App) : Prop := {
  inv_wf : well_formed s;
  inv_turn : current_player s = "X" \/ current_player s = "O";
  inv_no_X : ~ has_line (board s) "X";
  inv_no_O : ~ has_line (board s) "O";
  inv_empty : has_empty (board s);
  inv_count :
    count_mark "X" (board s) =
    count_mark "O" (board s) + (if current_player s =? "X" then 0 else 1)
}.

(** ** Scenarios *)

(** The object after the events [es], starting from a fresh application. *)
Definition play (es : list event) : App :=
  match run_events es init with
  | Some s => s
  | None => init
  end.

(** X has cells 0 and 1, O has 3 and 4, X is to move. *)
Definition x_about_to_win : App := play (map Click [0; 3; 1; 4]%Z).

(** Eight marks, no line, cell 8 Empty, X is to move. *)
Definition one_cell_left : App := play (map Click [0; 1; 2; 4; 3; 5; 7; 6]%Z).

(** The human played cell 0 against the computer and pressed Reset before
    the computer's timer fired: the turn is X and the timer is pending. *)
Definition reset_before_timer : App := play [Click 0; Reset_clicked].

(** ** The grid of [setup_ui] *)

(** [range(n)]. *)
Definition py_range (n : nat) : list Z := map Z.of_nat (seq 0 n).

(** What [setup_ui] fixes for one grid button: where [btn.grid] puts it
    and the subscript its [command] hands to [on_button_click]. *)
Record grid_button : Type := mkGridButton {
  grid_row : Z;
  grid_column : Z;
  command_index : Z
}.

(** The loop [for i in range(9)] of [setup_ui], in the order of the
    [append]s to [self.buttons]: [row=i//3], [column=i%3], [index=i]. *)
Definition setup_ui_grid : list grid_button :=
  map (fun i => {| grid_row := (i / 3)%Z;
                   grid_column := (i mod 3)%Z;
                   command_index := i |})
      (py_range 9).

(** Three cells of the grid are in one row, in one column, on the main
    diagonal or on the other diagonal. *)
Definition aligned (a b c : Z) : Prop :=
  ((a / 3 = b / 3 /\ b / 3 = c / 3) \/
   (a mod 3 = b mod 3 /\ b mod 3 = c mod 3) \/
   (a / 3 = a mod 3 /\ b / 3 = b mod 3 /\ c / 3 = c mod 3) \/
   (a / 3 + a mod 3 = 2 /\ b / 3 + b mod 3 = 2 /\ c / 3 + c mod 3 = 2))%Z.

Definition alignedb (a b c : Z) : bool :=
  (((a / 3 =? b / 3) && (b / 3 =? c / 3)) ||
   ((a mod 3 =? b mod 3) && (b mod 3 =? c mod 3)) ||
   ((a / 3 =? a mod 3) && (b / 3 =? b mod 3) && (c / 3 =? c mod 3)) ||
   ((a / 3 + a mod 3 =? 2) && (b / 3 + b mod 3 =? 2) && (c / 3 + c mod 3 =? 2)))%Z.

Definition in_combos (a b c : Z) : bool :=
  existsb (fun l => let '(x, y, z) := l in ((x =? a) && (y =? b) && (z =? c))%Z)
          winning_combos.

(** ** What the display shows *)

(** The widgets agree with the attributes, the cells hold nothing but the
    two marks, and every pending timer is a computer move. *)
Record consistent (s : App) : Prop := {
  con_display : buttons s = board s;
  con_status : status_label s = current_player s ++ "'s Turn";
  con_cells : Forall (fun c => c = "" \/ c = "X" \/ c = "O") (board s);
  con_timers : Forall (fun t => t = (500%Z, Computer_move)) (after_queue s)
}.

(** A full board with no line, outside any game. *)
Definition full_board : App :=
  with_board ["X"; "O"; "X"; "X"; "O"; "O"; "O"; "X"; "X"] init.

(** The human played cell 4 against the computer; the timer is pending. *)
Definition waiting_for_computer : App := play [Click 4].

(** ** The eight lines, written out *)

(** The cells [i], [j] and [k] of [b] all hold [m]. *)
Definition three_cells (b : list string) (m : string) (i j k : nat) : Prop :=
  b !! i = Some m /\ b !! j = Some m /\ b !! k = Some m.

(** One of the three rows, the three columns or the two diagonals of [b]
    is all [m]. *)
Definition eight_lines (b : list string) (m : string) : Prop :=
  three_cells b m 0 1 2 \/ three_cells b m 3 4 5 \/ three_cells b m 6 7 8 \/
  three_cells b m 0 3 6 \/ three_cells b m 1 4 7 \/ three_cells b m 2 5 8 \/
  three_cells b m 0 4 8 \/ three_cells b m 2 4 6.

(** ** Dialogs that stay open

    [messagebox.showinfo] returns only when the user closes the dialog.
    Until then the dialog holds the input (no click reaches the main
    window) and Tk keeps serving timers: a pending [root.after] callback
    runs [computer_move] on the object as the dialog found it, before the
    handler that opened the dialog goes on to [reset_game]. *)

(** What happens while one dialog is open.  Either the user closes it, or
    the oldest pending timer fires first, with draw [r]: [inner] is what
    happens while the dialog of that callback is open, if it opens one,
    and [next] what happens under the first dialog once the callback has
    returned. *)
Inductive dialog_script : Type :=
| Dismissed
| Timer_fires (r : nat) (inner next : dialog_script).

(** [on_button_click], [wait] being what goes on while its dialog is
    open. *)
Definition on_button_click_under (wait : M unit) (index : Z) : M unit :=
  let* cell := board_getitem index in
  if negb (cell =? "") then ret tt
  else
    let* p := get current_player in
    board_setitem index p >>
    button_config index p >>
    let* won := check_winner p in
    if won then
      showinfo "Game Over" ("Player " ++ p ++ " wins!") >>
      wait >>
      reset_game
    else
      let* b := get board in
      if negb (Py.contains "" b) then
        showinfo "Game Over" "It's a Draw!" >>
        wait >>
        reset_game
      else
        switch_player >>
        let* mode := get game_mode in
        let* q := get current_player in
        if (mode =? "PvE") && (q =? "O") then root_after 500 Computer_move
        else ret tt.

Definition computer_move_under (wait : M unit) (r : nat) : M unit :=
  let* b := get board in
  let moves := available_moves b in
  match moves with
  | [] => ret tt
  | _ => let* move := lift (fun _ => Py.choice r moves) in
         on_button_click_under wait move
  end.

Definition set_mode_under (wait : M unit) (mode : string) : M unit :=
  modify (with_game_mode mode) >>
  showinfo "Mode Changed" ("Game Mode set to: " ++ mode) >>
  wait >>
  reset_game.

(** The oldest pending timer fires, if there is one: Tk takes it off the
    queue and runs its callback; an exception that leaves the callback is
    reported and goes no further. *)
Definition serve_timer (body : M unit) : M unit :=
  fun s => match after_queue s with
           | [] => (s, Ok tt)
           | (_, Computer_move) :: rest =>
               (run body (with_after_queue rest s), Ok tt)
           end.

Fixpoint dialog_open (d : dialog_script) : M unit :=
  match d with
  | Dismissed => ret tt
  | Timer_fires r inner next =>
      serve_timer (computer_move_under (dialog_open inner) r) >>
      dialog_open next
  end.

(** The events of the main loop, each with what happens while the dialog
    of its callback is open. *)
Inductive modal_event : Type :=
| Click_then (index : Z) (d : dialog_script)
| Reset_then
| Mode_then (mode : string) (d : dialog_script)
| Timer_then (r : nat) (d : dialog_script).

Definition modal_dispatch (e : modal_event) (s : App) : option App :=
  match e with
  | Click_then index d =>
      Some (run (on_button_click_under (dialog_open d) index) s)
  | Reset_then => Some (run reset_game s)
  | Mode_then mode d => Some (run (set_mode_under (dialog_open d) mode) s)
  | Timer_then r d =>
      match after_queue s with
      | [] => None
      | (_, Computer_move) :: rest =>
          Some (run (computer_move_under (dialog_open d) r)
                  (with_after_queue rest s))
      end
  end.

(** The objects the program is in when no callback is running. *)
Inductive modal_reachable : App -> Prop :=
| modal_init : modal_reachable init
| modal_step s e s' :
    modal_reachable s -> modal_dispatch e s = Some s' -> modal_reachable s'.

(** Lines 114-132 of [on_button_click] with [wait] under the dialog, as a
    function of the object. *)
Definition settle_under (wait : M unit) (s : App) : App * result unit :=
  let p := current_player s in
  if wins (board s) p then
    (wait >> reset_game) (with_shown (shown s ++ [win_dialog p]) s)
  else if negb (Py.contains "" (board s)) then
    (wait >> reset_game) (with_shown (shown s ++ [draw_dialog]) s)
  else (handed_over s, Ok tt).

(** Nine cells, nine buttons, and nothing but computer moves pending:
    what every callback keeps, also under a dialog. *)
Definition sound (s : App) : Prop :=
  well_formed s /\ Forall (fun t => t = (500%Z, Computer_move)) (after_queue s).

(** ** More scenarios *)


(** Against the computer: X has cells 0, 1 and 8, O has 3 and 4, the turn
    is O and the computer's timer is pending. *)
Definition o_about_to_win : App :=
  play [Click 0; Timer 2; Click 1; Timer 1; Click 8].



(** The object once that click has returned. *)
Definition after_fourth_o : App :=
  run (on_button_click_under
         (dialog_open (Timer_fires 0 Dismissed Dismissed)) 5) o_about_to_win.

(** Projections of the objects the handlers build. *)
Ltac simpl_app :=
  cbn [current_player board buttons status_label game_mode shown after_queue
       handed_over played cleared init
       with_current_player with_board with_buttons with_status_label
       with_game_mode with_shown with_after_queue].

(** ** Subscripts *)

Section Subscripts.
Context {A : Type}.
Implicit Types (l : list A) (i : Z) (n : nat).

Lemma norm_index_nonneg (len : nat) i :
  (0 <= i < Z.of_nat len)%Z -> Py.norm_index len i = Some (Z.to_nat i).
Proof.
  intros Hi. unfold Py.norm_index.
  destruct (Z.ltb_spec i 0); [lia|].
  destruct (Z.ltb_spec i 0); [lia|].
  destruct (Z.leb_spec (Z.of_nat len) i); [lia|]. reflexivity.
Qed.

Lemma norm_index_negative (len : nat) i :
  (- Z.of_nat len <= i < 0)%Z ->
  Py.norm_index len i = Some (Z.to_nat (i + Z.of_nat len)).
Proof.
  intros Hi. unfold Py.norm_index.
  destruct (Z.ltb_spec i 0); [|lia].
  destruct (Z.ltb_spec (i + Z.of_nat len) 0); [lia|].
  destruct (Z.leb_spec (Z.of_nat len) (i + Z.of_nat len)); [lia|]. reflexivity.
Qed.

Lemma norm_index_outside (len : nat) i :
  (i < - Z.of_nat len \/ Z.of_nat len <= i)%Z -> Py.norm_index len i = None.
Proof.
  intros Hi. unfold Py.norm_index.
  destruct (Z.ltb_spec i 0).
  - destruct (Z.ltb_spec (i + Z.of_nat len) 0); [reflexivity|lia].
  - destruct (Z.ltb_spec i 0); [lia|].
    destruct (Z.leb_spec (Z.of_nat len) i); [reflexivity|lia].
Qed.

Lemma norm_index_lt (len : nat) i n :
  Py.norm_index len i = Some n -> n < len.
Proof.
  unfold Py.norm_index. intros H.
  destruct (Z.ltb_spec i 0);
    match type of H with
    | context [(?j <? 0)%Z] => destruct (Z.ltb_spec j 0)
    end; simpl in H; try discriminate;
    match type of H with
    | context [(?a <=? ?j)%Z] => destruct (Z.leb_spec a j)
    end; simplify_eq; lia.
Qed.

(** A negative subscript names the same cell as the subscript a whole
    length higher. *)
Lemma norm_index_wrap (len : nat) i :
  (- Z.of_nat len <= i < 0)%Z ->
  Py.norm_index len i = Py.norm_index len (i + Z.of_nat len).
Proof.
  intros Hi. rewrite norm_index_negative by lia.
  rewrite norm_index_nonneg by lia. reflexivity.
Qed.

Lemma getitem_norm l i n :
  Py.norm_index (length l) i = Some n ->
  exists x, l !! n = Some x /\ Py.getitem l i = Ok x.
Proof.
  intros H. unfold Py.getitem. rewrite H.
  destruct (lookup_lt_is_Some_2 l n (norm_index_lt _ _ _ H)) as [x Hx].
  exists x. rewrite Hx. done.
Qed.

Lemma getitem_nonneg l i x :
  (0 <= i)%Z -> l !! Z.to_nat i = Some x -> Py.getitem l i = Ok x.
Proof.
  intros Hi Hx. unfold Py.getitem.
  rewrite norm_index_nonneg, Hx; [done|].
  apply lookup_lt_Some in Hx. lia.
Qed.

Lemma getitem_outside l i :
  Py.norm_index (length l) i = None -> Py.getitem l i = Raise IndexError.
Proof. intros H. unfold Py.getitem. by rewrite H. Qed.

End Subscripts.

(** ** Lines *)

Lemma cell_eqb_is b i m : (0 <= i)%Z -> cell_eqb b i m = true <-> cell_is b i m.
Proof.
  intros Hi. unfold cell_eqb, cell_is. destruct (b !! Z.to_nat i) as [c|].
  - rewrite String.eqb_eq. split; [intros ->; done|]. intros [_ ?]. congruence.
  - split; [done|]. intros [_ ?]. done.
Qed.

Lemma winning_combos_nonneg l :
  In l winning_combos -> let '(i, j, k) := l in (0 <= i /\ 0 <= j /\ 0 <= k)%Z.
Proof.
  unfold winning_combos. simpl.
  intros H; repeat (destruct H as [<-|H]; [lia|]); destruct H.
Qed.

Lemma winning_combos_bound l :
  In l winning_combos -> let '(i, j, k) := l in (i < 9 /\ j < 9 /\ k < 9)%Z.
Proof.
  unfold winning_combos. simpl.
  intros H; repeat (destruct H as [<-|H]; [lia|]); destruct H.
Qed.

Lemma line_eqb_is b m l :
  In l winning_combos -> line_eqb b m l = true <-> line_is b m l.
Proof.
  intros Hl. apply winning_combos_nonneg in Hl. destruct l as [[i j] k].
  destruct Hl as (Hi & Hj & Hk). unfold line_eqb, line_is.
  rewrite !andb_true_iff, !cell_eqb_is by done. tauto.
Qed.

Lemma wins_has_line b m : wins b m = true <-> has_line b m.
Proof.
  unfold wins, has_line. rewrite existsb_exists.
  split; intros (l & Hl & H); exists l; split; try done;
    by apply (line_eqb_is b m l Hl).
Qed.

Lemma wins_false b m : wins b m = false <-> ~ has_line b m.
Proof. rewrite <- wins_has_line. destruct (wins b m); split; congruence. Qed.

Lemma contains_has_empty b : Py.contains "" b = true <-> has_empty b.
Proof.
  unfold Py.contains, has_empty. rewrite existsb_exists. split.
  - intros (x & Hx & E). apply String.eqb_eq in E. by subst.
  - intros H. exists "". split; [done|]. apply String.eqb_refl.
Qed.

(** ** [check_winner] *)

Lemma board_getitem_cell s i c :
  (0 <= i)%Z -> board s !! Z.to_nat i = Some c -> board_getitem i s = (s, Ok c).
Proof.
  intros Hi Hc. unfold board_getitem, lift. by rewrite (getitem_nonneg _ _ _ Hi Hc).
Qed.

Lemma check_winner_loop_total combos m s :
  Forall (fun l => let '(i, j, k) := l in
            (0 <= i < Z.of_nat (length (board s)) /\
             0 <= j < Z.of_nat (length (board s)) /\
             0 <= k < Z.of_nat (length (board s)))%Z) combos ->
  check_winner_loop combos m s = (s, Ok (existsb (line_eqb (board s) m) combos)).
Proof.
  induction 1 as [|[[i j] k] combos (Hi & Hj & Hk) _ IH]; [reflexivity|].
  destruct (lookup_lt_is_Some_2 (board s) (Z.to_nat i)) as [x Hx]; [lia|].
  destruct (lookup_lt_is_Some_2 (board s) (Z.to_nat j)) as [y Hy]; [lia|].
  destruct (lookup_lt_is_Some_2 (board s) (Z.to_nat k)) as [z Hz]; [lia|].
  cbn [check_winner_loop existsb line_eqb]. unfold bind, cell_eqb.
  rewrite (board_getitem_cell s i x), Hx by (done || lia).
  destruct (x =? m); [|exact IH].
  rewrite (board_getitem_cell s j y), Hy by (done || lia).
  destruct (y =? m); [|exact IH].
  rewrite (board_getitem_cell s k z), Hz by (done || lia).
  destruct (z =? m); [reflexivity|exact IH].
Qed.

Lemma check_winner_wins m s :
  length (board s) = 9 -> check_winner m s = (s, Ok (wins (board s) m)).
Proof.
  intros Hlen. apply check_winner_loop_total. rewrite Hlen.
  apply List.Forall_forall. intros [[i j] k] Hl.
  pose proof (winning_combos_nonneg _ Hl). pose proof (winning_combos_bound _ Hl).
  simpl in *. lia.
Qed.

(** ** The handlers as functions of the object *)

Lemma bind_ok {A B} (m : M A) (k : A -> M B) s s' a :
  m s = (s', Ok a) -> bind m k s = k a s'.
Proof. intros H. unfold bind. by rewrite H. Qed.

Lemma bind_raise {A B} (m : M A) (k : A -> M B) s s' e :
  m s = (s', Raise e) -> bind m k s = (s', Raise e).
Proof. intros H. unfold bind. by rewrite H. Qed.

Lemma reset_game_cleared s : reset_game s = (cleared s, Ok tt).
Proof. reflexivity. Qed.

Lemma set_mode_cleared mode s :
  set_mode mode s =
  (cleared (with_shown (shown s ++ [("Mode Changed", "Game Mode set to: " ++ mode)])
              (with_game_mode mode s)), Ok tt).
Proof. reflexivity. Qed.

Lemma board_setitem_norm index n v s :
  Py.norm_index (length (board s)) index = Some n ->
  board_setitem index v s = (with_board (<[n:=v]> (board s)) s, Ok tt).
Proof. intros H. unfold board_setitem, Py.setitem. by rewrite H. Qed.

Lemma button_config_norm index n v s :
  Py.norm_index (length (buttons s)) index = Some n ->
  button_config index v s = (with_buttons (<[n:=v]> (buttons s)) s, Ok tt).
Proof. intros H. unfold button_config, Py.setitem. by rewrite H. Qed.

(** Lines 114-132 run on an object whose board has nine cells. *)
Lemma after_move_settle s :
  length (board s) = 9 ->
  (let* won := check_winner (current_player s) in
   if won then
     showinfo "Game Over" ("Player " ++ current_player s ++ " wins!") >>
     reset_game
   else
     let* b := get board in
     if negb (Py.contains "" b) then
       showinfo "Game Over" "It's a Draw!" >>
       reset_game
     else
       switch_player >>
       let* mode := get game_mode in
       let* q := get current_player in
       if (mode =? "PvE") && (q =? "O") then root_after 500 Computer_move
       else ret tt) s
  = (settle s, Ok tt).
Proof.
  intros Hlen. rewrite (bind_ok _ _ _ _ _ (check_winner_wins _ s Hlen)).
  unfold settle. destruct (wins (board s) (current_player s)); [reflexivity|].
  unfold bind at 1, get.
  destruct (negb (Py.contains "" (board s))); [reflexivity|].
  unfold handed_over, other, switch_player, bind, get, modify, status_label_config,
    root_after, ret.
  destruct (current_player s =? "X"); simpl;
    destruct (game_mode s =? "PvE"); reflexivity.
Qed.

Lemma on_button_click_cases index s :
  well_formed s ->
  on_button_click index s =
  match Py.norm_index 9 index with
  | None => (s, Raise IndexError)
  | Some n =>
      match board s !! n with
      | Some c => if c =? "" then (settle (played n s), Ok tt) else (s, Ok tt)
      | None => (s, Raise IndexError)
      end
  end.
Proof.
  intros [Hb Ht]. unfold on_button_click.
  destruct (Py.norm_index 9 index) as [n|] eqn:Hn.
  - assert (Hn' := Hn). rewrite <- Hb in Hn'.
    destruct (getitem_norm _ _ _ Hn') as (c & Hc & Hget). rewrite Hc.
    rewrite (bind_ok _ _ s s c) by (unfold board_getitem, lift; by rewrite Hget).
    destruct (c =? ""); [|reflexivity]. cbn [negb].
    rewrite (bind_ok _ _ s s (current_player s)) by reflexivity.
    rewrite (bind_ok _ _ _ _ _ (board_setitem_norm index n _ s Hn')).
    rewrite (bind_ok _ _ _ (played n s) tt).
    + apply (after_move_settle (played n s)). cbn. by rewrite length_insert.
    + rewrite (button_config_norm index n); [reflexivity|]. cbn. by rewrite Ht.
  - apply bind_raise. unfold board_getitem, lift.
    rewrite getitem_outside; [done|]. by rewrite Hb.
Qed.

(** ** Writing one mark *)

Lemma cell_is_insert_other b n p i q :
  q <> p -> cell_is (<[n:=p]> b) i q -> cell_is b i q.
Proof.
  intros Hqp [Hi H]. split; [done|].
  apply list_lookup_insert_Some in H as [(_ & -> & _)|[_ H]]; done.
Qed.

Lemma has_line_insert_other b n p q :
  q <> p -> has_line (<[n:=p]> b) q -> has_line b q.
Proof.
  intros Hqp ([[i j] k] & Hl & Hi & Hj & Hk). exists (i, j, k).
  split; [done|]. cbn. split; [|split]; by eapply cell_is_insert_other.
Qed.

Lemma count_mark_insert m b n c v :
  b !! n = Some c ->
  count_mark m (<[n:=v]> b) + (if m =? c then 1 else 0) =
  count_mark m b + (if m =? v then 1 else 0).
Proof.
  unfold count_mark. revert n. induction b as [|x b IH]; intros [|n] H;
    simplify_eq/=.
  - destruct (m =? c), (m =? v); simpl; lia.
  - specialize (IH n H). destruct (m =? x); simpl; lia.
Qed.

Lemma count_mark_play m b n v :
  m <> "" -> b !! n = Some "" ->
  count_mark m (<[n:=v]> b) = count_mark m b + (if m =? v then 1 else 0).
Proof.
  intros Hm Hn. pose proof (count_mark_insert m b n "" v Hn) as H.
  apply String.eqb_neq in Hm. rewrite Hm in H. lia.
Qed.

(** ** The invariant *)

Lemma well_formed_cleared s : well_formed s -> well_formed (cleared s).
Proof.
  intros [Hb Ht]. split; cbn; [reflexivity|]. by rewrite length_map.
Qed.

Lemma well_formed_played n s : well_formed s -> well_formed (played n s).
Proof. intros [Hb Ht]. split; cbn; by rewrite length_insert. Qed.

Lemma invariant_cleared s : well_formed s -> invariant (cleared s).
Proof.
  intros Hwf. split; cbn.
  - by apply well_formed_cleared.
  - by left.
  - by apply wins_false.
  - by apply wins_false.
  - by left.
  - reflexivity.
Qed.

Lemma invariant_init : invariant init.
Proof.
  split; cbn.
  - by split.
  - by left.
  - by apply wins_false.
  - by apply wins_false.
  - by left.
  - reflexivity.
Qed.

Lemma invariant_handed_over n s :
  invariant s -> board s !! n = Some "" ->
  wins (board (played n s)) (current_player s) = false ->
  Py.contains "" (board (played n s)) = true ->
  invariant (handed_over (played n s)).
Proof.
  intros [Hwf Hturn HX HO _ Hcount] Hn Hw He.
  apply wins_false in Hw. apply contains_has_empty in He.
  cbn in Hw, He.
  assert (Hc := fun m Hm => count_mark_play m (board s) n (current_player s) Hm Hn).
  split; simpl_app; try done.
  - destruct (well_formed_played n s Hwf). by split.
  - unfold other. destruct (current_player s =? "X"); auto.
  - destruct Hturn as [E|E]; rewrite E in *; [done|].
    intros H. by apply HX, (has_line_insert_other _ n "O").
  - destruct Hturn as [E|E]; rewrite E in *; [|done].
    intros H. by apply HO, (has_line_insert_other _ n "X").
  - rewrite !Hc by done. unfold other.
    destruct Hturn as [E|E]; rewrite E in *; cbn in *; lia.
Qed.

Lemma invariant_settle_played n s :
  invariant s -> board s !! n = Some "" -> invariant (settle (played n s)).
Proof.
  intros Hinv Hn. unfold settle.
  change (current_player (played n s)) with (current_player s).
  destruct (wins _ _) eqn:Hw.
  { apply invariant_cleared. split; cbn; rewrite length_insert; apply Hinv. }
  destruct (Py.contains _ _) eqn:He; cbn [negb].
  - by apply invariant_handed_over.
  - apply invariant_cleared. split; cbn; rewrite length_insert; apply Hinv.
Qed.

Lemma invariant_on_button_click index s :
  invariant s -> invariant (run (on_button_click index) s).
Proof.
  intros Hinv. unfold run.
  rewrite on_button_click_cases by apply Hinv.
  destruct (Py.norm_index 9 index) as [n|]; [|done].
  destruct (board s !! n) as [c|] eqn:Hc; [|done].
  destruct (String.eqb_spec c ""); [|done]. subst c.
  by apply invariant_settle_played.
Qed.

Lemma invariant_ext s s' :
  board s' = board s -> buttons s' = buttons s ->
  current_player s' = current_player s -> invariant s -> invariant s'.
Proof.
  intros Eb Et Ep [[Hb Ht] ? ? ? ? ?].
  split; [split|..]; rewrite ?Eb, ?Et, ?Ep; done.
Qed.

(** ** [computer_move] *)

Lemma In_enumerate_from {A} (l : list A) k i x :
  In (i, x) (Py.enumerate_from k l) <->
  (k <= i)%Z /\ l !! Z.to_nat (i - k) = Some x.
Proof.
  revert k. induction l as [|y l IH]; intros k; simpl.
  - split; [done|]. by intros [_ ?].
  - rewrite IH. split.
    + intros [E|[Hk Hx]].
      * simplify_eq. rewrite Z.sub_diag. split; [lia|done].
      * split; [lia|].
        replace (Z.to_nat (i - k)) with (S (Z.to_nat (i - (k + 1)))) by lia. done.
    + intros [Hk Hx]. destruct (Z.eq_dec i k) as [->|Hne].
      * rewrite Z.sub_diag in Hx. simplify_eq/=. by left.
      * right. split; [lia|].
        replace (Z.to_nat (i - k)) with (S (Z.to_nat (i - (k + 1)))) in Hx by lia.
        done.
Qed.

(** The candidate moves are exactly the positions of the Empty cells. *)
Lemma available_moves_In b i : In i (available_moves b) <-> cell_is b i "".
Proof.
  unfold available_moves, cell_is, Py.enumerate. rewrite in_map_iff. split.
  - intros ([j x] & <- & H). apply filter_In in H as [H E].
    apply In_enumerate_from in H as [Hj Hx]. apply String.eqb_eq in E.
    simpl in *. subst x. by rewrite Z.sub_0_r in Hx.
  - intros [Hi Hx]. exists (i, ""). split; [done|]. apply filter_In. split; [|done].
    apply In_enumerate_from. by rewrite Z.sub_0_r.
Qed.

Lemma has_empty_available b : has_empty b -> available_moves b <> [].
Proof.
  unfold has_empty. intros H E.
  apply list_elem_of_In, list_elem_of_lookup in H as [n Hn].
  assert (In (Z.of_nat n) (available_moves b)) as Hin.
  { apply available_moves_In. split; [lia|]. by rewrite Nat2Z.id. }
  rewrite E in Hin. destruct Hin.
Qed.

Lemma choice_In {A} r (seq : list A) :
  seq <> [] -> exists x, Py.choice r seq = Ok x /\ In x seq.
Proof.
  intros Hne. unfold Py.choice.
  assert (r mod length seq < length seq) as Hlt.
  { apply Nat.mod_upper_bound. by destruct seq. }
  destruct (getitem_norm seq (Z.of_nat (r mod length seq)) (r mod length seq))
    as (x & Hx & Hget).
  { rewrite norm_index_nonneg by lia. by rewrite Nat2Z.id. }
  exists x. split.
  - by destruct seq.
  - apply list_elem_of_In, list_elem_of_lookup. eauto.
Qed.

(** Every candidate is the choice of some draw. *)
Lemma choice_any {A} (seq : list A) x :
  In x seq -> exists r, Py.choice r seq = Ok x.
Proof.
  intros H. apply list_elem_of_In, list_elem_of_lookup in H as [n Hn].
  exists n. pose proof (lookup_lt_Some _ _ _ Hn) as Hlt.
  unfold Py.choice. destruct seq as [|y seq]; [done|].
  rewrite Nat.mod_small by done.
  apply getitem_nonneg; [lia|]. by rewrite Nat2Z.id.
Qed.

Lemma computer_move_click r s :
  available_moves (board s) <> [] ->
  exists i, Py.choice r (available_moves (board s)) = Ok i /\
            In i (available_moves (board s)) /\
            computer_move r s = on_button_click i s.
Proof.
  intros Hne. destruct (choice_In r _ Hne) as (i & Hc & Hin).
  exists i. repeat split; try done.
  unfold computer_move. rewrite (bind_ok _ _ s s (board s)) by reflexivity.
  destruct (available_moves (board s)) eqn:E; [done|].
  apply bind_ok. unfold lift. by rewrite Hc.
Qed.

Lemma computer_move_full r s :
  available_moves (board s) = [] -> computer_move r s = (s, Ok tt).
Proof.
  intros E. unfold computer_move.
  rewrite (bind_ok _ _ s s (board s)) by reflexivity. by rewrite E.
Qed.

Lemma on_button_click_empty i s :
  well_formed s -> cell_is (board s) i "" ->
  on_button_click i s = (settle (played (Z.to_nat i) s), Ok tt).
Proof.
  intros Hwf [Hi Hc]. rewrite on_button_click_cases by done.
  pose proof (lookup_lt_Some _ _ _ Hc) as Hlt. rewrite (wf_board _ Hwf) in Hlt.
  rewrite norm_index_nonneg by lia. by rewrite Hc.
Qed.

Lemma computer_move_settle r s :
  well_formed s -> has_empty (board s) ->
  exists n, board s !! n = Some "" /\
            In (Z.of_nat n) (available_moves (board s)) /\
            computer_move r s = on_button_click (Z.of_nat n) s /\
            on_button_click (Z.of_nat n) s = (settle (played n s), Ok tt).
Proof.
  intros Hwf He.
  destruct (computer_move_click r s (has_empty_available _ He)) as (i & _ & Hin & Hcm).
  pose proof (proj1 (available_moves_In _ _) Hin) as Hcell.
  assert (Hcell' := Hcell). destruct Hcell' as [Hi Hc].
  exists (Z.to_nat i). rewrite Z2Nat.id by done. repeat split; try done.
  by apply on_button_click_empty.
Qed.

Lemma invariant_computer_move r s :
  invariant s -> invariant (run (computer_move r) s).
Proof.
  intros Hinv. destruct (available_moves (board s)) eqn:E.
  - unfold run. by rewrite computer_move_full.
  - destruct (computer_move_click r s) as (i & _ & _ & Hcm); [by rewrite E|].
    unfold run. rewrite Hcm. by apply invariant_on_button_click.
Qed.

(** ** Reachable objects *)

Lemma invariant_dispatch e s s' :
  invariant s -> dispatch e s = Some s' -> invariant s'.
Proof.
  intros Hinv. destruct e as [index| |mode|r]; simpl.
  - intros [= <-]. by apply invariant_on_button_click.
  - intros [= <-]. apply invariant_cleared, Hinv.
  - intros [= <-]. apply invariant_cleared. destruct Hinv as [[? ?] _ _ _ _ _].
    by split.
  - destruct (after_queue s) as [|[ms []] rest]; [done|]. intros [= <-].
    apply invariant_computer_move. by apply (invariant_ext s).
Qed.

Lemma reachable_invariant s : reachable s -> invariant s.
Proof.
  induction 1 as [|s e s' _ IH Hd]; [apply invariant_init|].
  by apply (invariant_dispatch e s).
Qed.

Lemma reachable_run_events es s s' :
  reachable s -> run_events es s = Some s' -> reachable s'.
Proof.
  revert s. induction es as [|e es IH]; intros s Hs; simpl.
  - by intros [= <-].
  - destruct (dispatch e s) as [s1|] eqn:Hd; [|done].
    apply IH. by apply (reach_step s e).
Qed.

Lemma reachable_play es : reachable (play es).
Proof.
  unfold play. destruct (run_events es init) as [s|] eqn:E.
  - by apply (reachable_run_events es init), E; constructor.
  - constructor.
Qed.

(** * The properties *)

(** ** Win detection *)

Lemma has_line_eight_lines b m : has_line b m <-> eight_lines b m.
Proof.
  unfold has_line, eight_lines, three_cells. split.
  - intros (l & Hl & H). unfold winning_combos in Hl. cbn [In] in Hl.
    repeat (destruct Hl as [<-|Hl];
            [destruct H as ((_ & H1) & (_ & H2) & (_ & H3)); tauto|]).
    destruct Hl.
  - assert (forall i j k : Z,
              In (i, j, k) winning_combos ->
              b !! Z.to_nat i = Some m /\ b !! Z.to_nat j = Some m /\
              b !! Z.to_nat k = Some m ->
              exists l, In l winning_combos /\ line_is b m l) as Hex.
    { intros i j k Hin (H1 & H2 & H3). exists (i, j, k). split; [done|].
      pose proof (winning_combos_nonneg _ Hin) as (Hi & Hj & Hk).
      by repeat split. }
    intros [H|[H|[H|[H|[H|[H|[H|H]]]]]]];
      [apply (Hex 0 1 2)%Z|apply (Hex 3 4 5)%Z|apply (Hex 6 7 8)%Z|
       apply (Hex 0 3 6)%Z|apply (Hex 1 4 7)%Z|apply (Hex 2 5 8)%Z|
       apply (Hex 0 4 8)%Z|apply (Hex 2 4 6)%Z];
      try exact H; unfold winning_combos; cbn [In]; tauto.
Qed.

(** C1: on every nine-cell board and for every mark [m], [check_winner(m)]
    returns a boolean, raises nothing and leaves the object as it is, and
    the boolean is [True] if and only if one of the eight lines 0-1-2,
    3-4-5, 6-7-8, 0-3-6, 1-4-7, 2-5-8, 0-4-8, 2-4-6 has its three cells
    equal to [m]. *)
Theorem check_winner_iff_eight_lines (s : App) (m : string) :
  length (board s) = 9 ->
  exists w, check_winner m s = (s, Ok w) /\
            (w = true <->
             three_cells (board s) m 0 1 2 \/ three_cells (board s) m 3 4 5 \/
             three_cells (board s) m 6 7 8 \/ three_cells (board s) m 0 3 6 \/
             three_cells (board s) m 1 4 7 \/ three_cells (board s) m 2 5 8 \/
             three_cells (board s) m 0 4 8 \/ three_cells (board s) m 2 4 6).
Proof.
  intros Hlen. exists (wins (board s) m). split.
  - by apply check_winner_wins.
  - rewrite wins_has_line. apply has_line_eight_lines.
Qed.

(** On the board X X X / O O . / . . . the answer for X is [True], by the
    row 0-1-2, and the answer for O is [False]. *)
Lemma check_winner_iff_eight_lines_witness :
  length (board (played 2 x_about_to_win)) = 9 /\
  check_winner "X" (played 2 x_about_to_win) = (played 2 x_about_to_win, Ok true) /\
  check_winner "O" (played 2 x_about_to_win) = (played 2 x_about_to_win, Ok false).
Proof.
  assert (length (board (played 2 x_about_to_win)) = 9) as Hlen
    by (vm_compute; reflexivity).
  split; [exact Hlen|]. split.
  - destruct (check_winner_iff_eight_lines (played 2 x_about_to_win) "X" Hlen)
      as (w & Hrun & Hw).
    rewrite Hrun. f_equal. f_equal. apply Hw. left. vm_compute. by repeat split.
  - destruct (check_winner_iff_eight_lines (played 2 x_about_to_win) "O" Hlen)
      as (w & Hrun & Hw).
    rewrite Hrun. f_equal. f_equal. destruct w; [|done]. exfalso.
    destruct (proj1 Hw eq_refl) as [H|[H|[H|[H|[H|[H|[H|H]]]]]]];
      vm_compute in H; destruct H as (H1 & H2 & H3); discriminate.
Defined.

(** ** Reset and mode change *)

(** C8: [reset_game], called on any object, returns normally and leaves
    nine Empty cells and the turn X; the mode is the one it found. *)
Theorem reset_game_resets (s : App) :
  snd (reset_game s) = Ok tt /\
  board (run reset_game s) = replicate 9 "" /\
  current_player (run reset_game s) = "X" /\
  game_mode (run reset_game s) = game_mode s.
Proof. repeat split. Qed.

(** C9: [set_mode(mode)], called on any object, returns normally; it
    stores [mode], shows its dialog and then runs [reset_game] whatever the
    board was, so it leaves the mode [mode], nine Empty cells and the
    turn X. *)
Theorem set_mode_resets (mode : string) (s : App) :
  snd (set_mode mode s) = Ok tt /\
  run (set_mode mode) s =
    run reset_game
      (run (showinfo "Mode Changed" ("Game Mode set to: " ++ mode))
         (with_game_mode mode s)) /\
  game_mode (run (set_mode mode) s) = mode /\
  board (run (set_mode mode) s) = replicate 9 "" /\
  current_player (run (set_mode mode) s) = "X".
Proof. repeat split. Qed.

(** ** Rejected clicks *)

(** C4: a click on a cell that holds a mark returns at once: the board,
    the turn and everything else of the object are as before. *)
Theorem occupied_cell_click_noop (s : App) (index : Z) (c : string) :
  (0 <= index)%Z -> board s !! Z.to_nat index = Some c -> c <> "" ->
  on_button_click index s = (s, Ok tt) /\
  board (run (on_button_click index) s) = board s /\
  current_player (run (on_button_click index) s) = current_player s.
Proof.
  intros Hi Hc Hne.
  assert (on_button_click index s = (s, Ok tt)) as E.
  { unfold on_button_click.
    rewrite (bind_ok _ _ s s c) by by apply board_getitem_cell.
    apply String.eqb_neq in Hne. by rewrite Hne. }
  unfold run. by rewrite E.
Qed.

Lemma occupied_cell_click_noop_witness :
  (0 <= 3)%Z /\ board x_about_to_win !! Z.to_nat 3 = Some "O" /\ "O" <> "" /\
  on_button_click 3 x_about_to_win = (x_about_to_win, Ok tt) /\
  board (run (on_button_click 3) x_about_to_win) = board x_about_to_win /\
  current_player (run (on_button_click 3) x_about_to_win) =
  current_player x_about_to_win.
Proof.
  assert (board x_about_to_win !! Z.to_nat 3 = Some "O") as Hc
    by (vm_compute; reflexivity).
  split; [lia|]. split; [exact Hc|]. split; [discriminate|].
  apply (occupied_cell_click_noop x_about_to_win 3 "O"); [lia|exact Hc|discriminate].
Defined.

(** C3, as the specification has it, fails: a click with subscript 9
    raises [IndexError], and a click with subscript -1 plays cell 8. *)
Lemma click_9_raises_and_click_minus_1_plays :
  on_button_click 9 init = (init, Raise IndexError) /\
  board (run (on_button_click (-1)) init) = <[8:="X"]> (board init) /\
  current_player (run (on_button_click (-1)) init) = "O".
Proof. repeat split. Qed.

(** C3, amended: on an object with nine cells and nine buttons, a click
    with a subscript below -9 or above 8 changes nothing and raises
    [IndexError]; a click with a subscript from -9 to -1 is the click on
    the cell nine higher. *)
Theorem out_of_range_click (s : App) (index : Z) :
  well_formed s ->
  ((index < -9 \/ 8 < index)%Z -> on_button_click index s = (s, Raise IndexError)) /\
  ((-9 <= index < 0)%Z -> on_button_click index s = on_button_click (index + 9) s).
Proof.
  intros Hwf. split; intros Hi.
  - rewrite on_button_click_cases by done.
    rewrite norm_index_outside; [done|]. lia.
  - rewrite !on_button_click_cases by done.
    by rewrite (norm_index_wrap 9 index).
Qed.

Lemma out_of_range_click_witness :
  well_formed x_about_to_win /\
  on_button_click 12 x_about_to_win = (x_about_to_win, Raise IndexError) /\
  on_button_click (-7) x_about_to_win = on_button_click 2 x_about_to_win.
Proof.
  assert (well_formed x_about_to_win) as Hwf by (split; vm_compute; reflexivity).
  split; [exact Hwf|]. split.
  - apply (proj1 (out_of_range_click x_about_to_win 12 Hwf)). lia.
  - apply (proj2 (out_of_range_click x_about_to_win (-7) Hwf)). lia.
Defined.

(** ** The outcome of a move *)

Lemma settle_played_cases n s :
  let p := current_player s in
  let b' := <[n:=p]> (board s) in
  let s' := settle (played n s) in
  (wins b' p = true /\
   shown s' = (shown s ++ [win_dialog p])%list /\
   board s' = replicate 9 "" /\ current_player s' = "X") \/
  (wins b' p = false /\ Py.contains "" b' = false /\
   shown s' = (shown s ++ [draw_dialog])%list /\
   board s' = replicate 9 "" /\ current_player s' = "X") \/
  (wins b' p = false /\ Py.contains "" b' = true /\
   shown s' = shown s /\ board s' = b' /\ current_player s' = other p).
Proof.
  intros p b' s'. subst s'. unfold settle.
  change (board (played n s)) with b'.
  change (current_player (played n s)) with p.
  destruct (wins b' p); [by left|]. right.
  destruct (Py.contains "" b'); [by right|by left].
Qed.

Lemma snoc_neq_self {A} (l : list A) x : (l ++ [x])%list <> l.
Proof.
  intros E. apply (f_equal length) in E. rewrite length_app in E. simpl in E. lia.
Qed.






(** ** The computer's move *)

Lemma settle_played_board n s :
  let p := current_player s in
  let b' := <[n:=p]> (board s) in
  let s' := settle (played n s) in
  (board s' = b' /\ current_player s' = other p /\
   shown s' = shown s /\ has_empty b' /\ ~ eight_lines b' p) \/
  (board s' = replicate 9 "" /\ current_player s' = "X" /\
   (~ has_empty b' \/ eight_lines b' p)).
Proof.
  cbv zeta. rewrite <- has_line_eight_lines, <- wins_has_line, <- contains_has_empty.
  destruct (settle_played_cases n s)
    as [(Hw & _ & Hb & Hp)|[(Hw & He & _ & Hb & Hp)|(Hw & He & Hs & Hb & Hp)]].
  - right. auto.
  - right. repeat split; try done. left. by rewrite He.
  - left. repeat split; try done. by rewrite Hw.
Qed.

(** C6: when the board has an Empty cell, [computer_move] is the click on
    one of the candidate cells; the candidates are exactly the Empty cells
    of the board as the call finds it and the chosen cell is one of them.
    The click plays that cell: either the game goes on with the mark of
    the current player in it and the turn handed over, or the board with
    that mark was full or had a line of the player, and the game has been
    reset. *)
Theorem computer_move_plays_empty_cell (s : App) (r : nat) :
  well_formed s -> has_empty (board s) ->
  (forall i, In i (available_moves (board s)) <-> cell_is (board s) i "") /\
  exists n,
    In (Z.of_nat n) (available_moves (board s)) /\
    board s !! n = Some "" /\
    computer_move r s = on_button_click (Z.of_nat n) s /\
    (board (run (computer_move r) s) = <[n:=current_player s]> (board s) /\
     current_player (run (computer_move r) s) = other (current_player s) /\
     has_empty (<[n:=current_player s]> (board s)) /\
     ~ eight_lines (<[n:=current_player s]> (board s)) (current_player s) \/
     board (run (computer_move r) s) = replicate 9 "" /\
     current_player (run (computer_move r) s) = "X" /\
     (~ has_empty (<[n:=current_player s]> (board s)) \/
      eight_lines (<[n:=current_player s]> (board s)) (current_player s))).
Proof.
  intros Hwf He. split; [apply available_moves_In|].
  destruct (computer_move_settle r s Hwf He) as (n & Hc & Hin & Hcm & Hclick).
  exists n. split; [done|]. split; [done|]. split; [done|].
  unfold run. rewrite Hcm, Hclick. cbn [fst].
  destruct (settle_played_board n s) as [(Hb & Hp & _ & H1 & H2)|(Hb & Hp & H)];
    [left|right]; auto.
Qed.

(** No Empty cell is left out: each one is the move of some draw. *)
Lemma computer_move_any_empty_cell (s : App) (i : Z) :
  cell_is (board s) i "" -> exists r, computer_move r s = on_button_click i s.
Proof.
  intros Hc. apply available_moves_In in Hc.
  destruct (choice_any _ _ Hc) as [r Hr]. exists r.
  unfold computer_move. rewrite (bind_ok _ _ s s (board s)) by reflexivity.
  destruct (available_moves (board s)) eqn:E; [destruct Hc|].
  apply bind_ok. unfold lift. by rewrite Hr.
Qed.

Lemma computer_move_plays_empty_cell_witness :
  well_formed x_about_to_win /\ has_empty (board x_about_to_win) /\
  exists n,
    In (Z.of_nat n) (available_moves (board x_about_to_win)) /\
    board x_about_to_win !! n = Some "" /\
    computer_move 5 x_about_to_win = on_button_click (Z.of_nat n) x_about_to_win.
Proof.
  assert (well_formed x_about_to_win) as Hwf by (split; vm_compute; reflexivity).
  assert (has_empty (board x_about_to_win)) as He
    by (apply (proj1 (contains_has_empty _)); vm_compute; reflexivity).
  split; [exact Hwf|]. split; [exact He|].
  destruct (computer_move_plays_empty_cell x_about_to_win 5 Hwf He)
    as (_ & n & Hin & Hc & Hcm & _).
  exists n. split; [exact Hin|]. split; [exact Hc|exact Hcm].
Defined.

(** C10: the mark [computer_move] writes is the mark of the player whose
    turn it is when it runs.  With an Empty cell on the board it is the
    click on some Empty cell [n], and lines 111-112 write [current_player]
    there.  Either the game goes on with that board, or the board is
    reset because, with [current_player] in cell [n], it was full or had a
    line of [current_player].  When the turn is X the mark is an X: the
    board with the new mark has one more X and as many O as before. *)
Theorem computer_move_writes_current_mark (s : App) (r : nat) :
  well_formed s -> has_empty (board s) ->
  exists n,
    board s !! n = Some "" /\
    computer_move r s = on_button_click (Z.of_nat n) s /\
    board (played n s) = <[n:=current_player s]> (board s) /\
    (board (run (computer_move r) s) = board (played n s) /\
     current_player (run (computer_move r) s) = other (current_player s) \/
     board (run (computer_move r) s) = replicate 9 "" /\
     (~ has_empty (board (played n s)) \/
      eight_lines (board (played n s)) (current_player s))) /\
    (current_player s = "X" ->
     count_mark "X" (board (played n s)) = S (count_mark "X" (board s)) /\
     count_mark "O" (board (played n s)) = count_mark "O" (board s)).
Proof.
  intros Hwf He.
  destruct (computer_move_settle r s Hwf He) as (n & Hc & _ & Hcm & Hclick).
  exists n. split; [done|]. split; [done|]. split; [done|]. split.
  - unfold run. rewrite Hcm, Hclick. cbn [fst]. simpl_app.
    destruct (settle_played_board n s) as [(Hb & Hp & _)|(Hb & _ & H)];
      [left|right]; auto.
  - intros E. simpl_app. rewrite !count_mark_play by done. rewrite E.
    split; cbn; lia.
Qed.

(** The race: cell 0 was played against the computer and Reset pressed
    before the timer fired.  The turn is X, the timer is still pending,
    and the move it makes puts the only X on the board and no O. *)
Lemma computer_move_writes_current_mark_witness :
  reachable reset_before_timer /\
  current_player reset_before_timer = "X" /\
  after_queue reset_before_timer = [(500%Z, Computer_move)] /\
  well_formed reset_before_timer /\ has_empty (board reset_before_timer) /\
  exists n,
    board reset_before_timer !! n = Some "" /\
    computer_move 4 reset_before_timer =
      on_button_click (Z.of_nat n) reset_before_timer /\
    count_mark "X" (board (played n reset_before_timer)) = 1 /\
    count_mark "O" (board (played n reset_before_timer)) = 0.
Proof.
  assert (well_formed reset_before_timer) as Hwf by (split; vm_compute; reflexivity).
  assert (has_empty (board reset_before_timer)) as He
    by (apply (proj1 (contains_has_empty _)); vm_compute; reflexivity).
  split; [apply reachable_play|].
  split; [vm_compute; reflexivity|]. split; [vm_compute; reflexivity|].
  split; [exact Hwf|]. split; [exact He|].
  destruct (computer_move_writes_current_mark reset_before_timer 4 Hwf He)
    as (n & Hc & Hcm & _ & _ & Hx).
  exists n. split; [exact Hc|]. split; [exact Hcm|].
  apply Hx. vm_compute. reflexivity.
Defined.

(** * Further properties of the handlers *)

(** ** The display *)

Lemma consistent_cleared s :
  length (buttons s) = 9 ->
  Forall (fun t => t = (500%Z, Computer_move)) (after_queue s) ->
  consistent (cleared s).
Proof.
  intros Ht Hq. split; simpl_app; try done.
  - rewrite <- Ht. clear. induction (buttons s) as [|x l IH]; [done|].
    simpl. by rewrite IH.
  - by apply Forall_replicate; left.
Qed.

Lemma consistent_handed_over n s :
  invariant s -> consistent s -> consistent (handed_over (played n s)).
Proof.
  intros Hinv [Hd Hs Hc Hq]. split; simpl_app.
  - by rewrite Hd.
  - reflexivity.
  - apply Forall_insert; [done|]. destruct (inv_turn _ Hinv) as [-> | ->]; auto.
  - unfold other. destruct (game_mode s =? "PvE"); [|done].
    destruct (inv_turn _ Hinv) as [-> | ->]; cbn; [|done].
    apply Forall_app. split; [done|]. by constructor.
Qed.

Lemma consistent_settle_played n s :
  invariant s -> consistent s -> consistent (settle (played n s)).
Proof.
  intros Hinv Hcon. pose proof (con_timers _ Hcon) as Hq.
  pose proof (wf_buttons _ (inv_wf _ Hinv)) as Ht. unfold settle.
  destruct (wins _ _).
  { apply consistent_cleared; simpl_app; [by rewrite length_insert|done]. }
  destruct (negb _).
  { apply consistent_cleared; simpl_app; [by rewrite length_insert|done]. }
  by apply consistent_handed_over.
Qed.

Lemma consistent_on_button_click index s :
  invariant s -> consistent s -> consistent (run (on_button_click index) s).
Proof.
  intros Hinv Hcon. unfold run. rewrite on_button_click_cases by apply Hinv.
  destruct (Py.norm_index 9 index) as [n|]; [|done].
  destruct (board s !! n) as [c|]; [|done].
  destruct (c =? ""); [|done]. by apply consistent_settle_played.
Qed.

Lemma consistent_computer_move r s :
  invariant s -> consistent s -> consistent (run (computer_move r) s).
Proof.
  intros Hinv Hcon. destruct (available_moves (board s)) eqn:E.
  - unfold run. by rewrite computer_move_full.
  - destruct (computer_move_click r s) as (i & _ & _ & Hcm); [by rewrite E|].
    unfold run. rewrite Hcm. by apply consistent_on_button_click.
Qed.

Lemma consistent_dispatch e s s' :
  invariant s -> consistent s -> dispatch e s = Some s' -> consistent s'.
Proof.
  intros Hinv Hcon. pose proof (wf_buttons _ (inv_wf _ Hinv)) as Ht.
  destruct e as [index| |mode|r]; simpl.
  - intros [= <-]. by apply consistent_on_button_click.
  - intros [= <-]. apply consistent_cleared; [done|apply Hcon].
  - intros [= <-]. apply consistent_cleared; [done|apply Hcon].
  - destruct (after_queue s) as [|[ms []] rest] eqn:Eq; [done|]. intros [= <-].
    apply consistent_computer_move.
    + by apply (invariant_ext s).
    + destruct Hcon as [Hd Hs Hc Hq]. split; simpl_app; try done.
      rewrite Eq in Hq. by inversion Hq.
Qed.

Lemma reachable_consistent s : reachable s -> consistent s.
Proof.
  induction 1 as [|s e s' Hs IH Hd].
  - split; simpl_app; try done. by apply Forall_replicate; left.
  - apply (consistent_dispatch e s); [by apply reachable_invariant|done..].
Qed.

(** X1: between any two callbacks the nine buttons show the board: the
    text of each button is the content of its cell. *)
Theorem buttons_show_board (s : App) :
  reachable s -> buttons s = board s.
Proof. intros Hs. apply reachable_consistent, Hs. Qed.

Lemma buttons_show_board_witness :
  reachable one_cell_left /\ buttons one_cell_left = board one_cell_left.
Proof.
  split; [apply reachable_play|]. apply buttons_show_board, reachable_play.
Defined.

(** X2: between any two callbacks the turn is X or O and the status label
    announces it. *)
Theorem status_label_announces_turn (s : App) :
  reachable s ->
  (current_player s = "X" \/ current_player s = "O") /\
  status_label s = current_player s ++ "'s Turn".
Proof.
  intros Hs. split.
  - apply reachable_invariant, Hs.
  - apply reachable_consistent, Hs.
Qed.

Lemma status_label_announces_turn_witness :
  reachable x_about_to_win /\
  (current_player x_about_to_win = "X" \/ current_player x_about_to_win = "O") /\
  status_label x_about_to_win = current_player x_about_to_win ++ "'s Turn".
Proof.
  split; [apply reachable_play|].
  apply status_label_announces_turn, reachable_play.
Defined.


(** ** Wins *)

Lemma click_empty_settles s index n :
  well_formed s -> Py.norm_index 9 index = Some n -> board s !! n = Some "" ->
  on_button_click index s = (settle (played n s), Ok tt).
Proof.
  intros Hwf Hn Hc. by rewrite on_button_click_cases, Hn, Hc.
Qed.

(** X4: when a click writes a mark into an Empty cell of a reachable
    object, the first dialog the click shows is the win of the player who
    moved if and only if the board with the new mark has one of the eight
    lines all of that player, full board or not; the other player has no
    line there, and a click that completes a line never shows the draw
    dialog first. *)
Theorem win_iff_mover_line (s : App) (index : Z) (n : nat) :
  reachable s -> Py.norm_index 9 index = Some n -> board s !! n = Some "" ->
  (shown (run (on_button_click index) s) !! length (shown s) =
     Some (win_dialog (current_player s)) <->
   eight_lines (<[n:=current_player s]> (board s)) (current_player s)) /\
  ~ eight_lines (<[n:=current_player s]> (board s)) (other (current_player s)) /\
  (eight_lines (<[n:=current_player s]> (board s)) (current_player s) ->
   shown (run (on_button_click index) s) !! length (shown s) <>
     Some draw_dialog).
Proof.
  intros Hreach Hn Hc. pose proof (reachable_invariant s Hreach) as Hinv.
  unfold run. rewrite (click_empty_settles s index n) by (done || apply Hinv).
  cbn [fst]. rewrite <- !has_line_eight_lines, <- wins_has_line.
  assert (win_dialog (current_player s) <> draw_dialog) as Hne by discriminate.
  assert (forall x, (shown s ++ [x])%list !! length (shown s) = Some x) as Hlast.
  { intros x. rewrite lookup_app_r by done. by rewrite Nat.sub_diag. }
  assert (shown s !! length (shown s) = None) as Hnone
    by by apply lookup_ge_None_2.
  split; [|split].
  - destruct (settle_played_cases n s)
      as [(Hw & Hs & _)|[(Hw & _ & Hs & _)|(Hw & _ & Hs & _)]];
      rewrite Hs, Hw, ?Hlast, ?Hnone; split; done.
  - intros Hl. apply has_line_insert_other in Hl.
    + unfold other in Hl.
      destruct (inv_turn _ Hinv) as [E|E]; rewrite E in Hl; cbn in Hl;
        [by apply (inv_no_O _ Hinv)|by apply (inv_no_X _ Hinv)].
    + unfold other. destruct (inv_turn _ Hinv) as [-> | ->]; discriminate.
  - intros Hw.
    destruct (settle_played_cases n s)
      as [(_ & Hs & _)|[(Hw' & _)|(Hw' & _)]]; [|congruence..].
    rewrite Hs, Hlast. congruence.
Qed.

Lemma win_iff_mover_line_witness :
  reachable x_about_to_win /\ Py.norm_index 9 2 = Some 2 /\
  board x_about_to_win !! 2 = Some "" /\
  shown (run (on_button_click 2) x_about_to_win) !! length (shown x_about_to_win) =
  Some (win_dialog (current_player x_about_to_win)).
Proof.
  assert (board x_about_to_win !! 2 = Some "") as Hc by (vm_compute; reflexivity).
  split; [apply reachable_play|]. split; [reflexivity|]. split; [exact Hc|].
  apply (proj2 (proj1 (win_iff_mover_line x_about_to_win 2 2
                         (reachable_play _) eq_refl Hc))).
  left. vm_compute. by repeat split.
Defined.

(** ** How a game advances *)

Lemma count_mark_zero m b : count_mark m b = 0 -> ~ In m b.
Proof.
  unfold count_mark. induction b as [|x b IH]; simpl; [tauto|].
  destruct (String.eqb_spec m x); simpl; [done|].
  intros H [E|Hin]; [congruence|by apply IH].
Qed.

(** X5: in a reachable object, a click on an Empty cell either ends the
    game, leaving nine Empty cells and the turn X, or leaves exactly one
    Empty cell fewer; and a click on the last Empty cell always ends the
    game, with the dialog of a win of the player who moved or of a draw. *)
Theorem click_fills_one_cell_or_ends_game (s : App) (index : Z) (n : nat) :
  reachable s -> Py.norm_index 9 index = Some n -> board s !! n = Some "" ->
  (board (run (on_button_click index) s) = replicate 9 "" /\
   current_player (run (on_button_click index) s) = "X" \/
   S (count_mark "" (board (run (on_button_click index) s))) =
   count_mark "" (board s)) /\
  (count_mark "" (board s) = 1 ->
   board (run (on_button_click index) s) = replicate 9 "" /\
   current_player (run (on_button_click index) s) = "X" /\
   (shown (run (on_button_click index) s) =
      (shown s ++ [win_dialog (current_player s)])%list \/
    shown (run (on_button_click index) s) = (shown s ++ [draw_dialog])%list)).
Proof.
  intros Hreach Hn Hc. pose proof (reachable_invariant s Hreach) as Hinv.
  unfold run. rewrite (click_empty_settles s index n) by (done || apply Hinv).
  cbn [fst].
  assert (S (count_mark "" (<[n:=current_player s]> (board s))) =
          count_mark "" (board s)) as Hcount.
  { pose proof (count_mark_insert "" (board s) n "" (current_player s) Hc) as H.
    destruct (inv_turn _ Hinv) as [E|E]; rewrite E in *; cbn in H; lia. }
  destruct (settle_played_cases n s)
    as [(Hw & Hs & Hb & Hp)|[(Hw & He & Hs & Hb & Hp)|(Hw & He & Hs & Hb & Hp)]].
  - split; [by left|]. intros _. repeat split; auto.
  - split; [by left|]. intros _. repeat split; auto.
  - split; [right; by rewrite Hb|]. intros H1. exfalso.
    apply contains_has_empty in He. revert He. apply count_mark_zero. lia.
Qed.

Lemma click_fills_one_cell_or_ends_game_witness :
  reachable one_cell_left /\ Py.norm_index 9 8 = Some 8 /\
  board one_cell_left !! 8 = Some "" /\ count_mark "" (board one_cell_left) = 1 /\
  board (run (on_button_click 8) one_cell_left) = replicate 9 "" /\
  current_player (run (on_button_click 8) one_cell_left) = "X".
Proof.
  assert (board one_cell_left !! 8 = Some "") as Hc by (vm_compute; reflexivity).
  assert (count_mark "" (board one_cell_left) = 1) as H1 by (vm_compute; reflexivity).
  split; [apply reachable_play|]. split; [reflexivity|]. split; [exact Hc|].
  split; [exact H1|].
  destruct (proj2 (click_fills_one_cell_or_ends_game one_cell_left 8 8
                     (reachable_play _) eq_refl Hc) H1) as (Hb & Hp & _).
  split; [exact Hb|exact Hp].
Defined.

(** ** The mode and the timers *)

(** X6: when a click writes a mark into an Empty cell of a reachable
    object and the game goes on (an Empty cell is left and the player who
    moved has no line), the click schedules one computer move, 500 ms
    later, if and only if the mode is PvE and the mark is an X; if not,
    the pending timers are as before. *)
Theorem timer_scheduled_iff (s : App) (index : Z) (n : nat) :
  reachable s -> Py.norm_index 9 index = Some n -> board s !! n = Some "" ->
  has_empty (<[n:=current_player s]> (board s)) ->
  ~ eight_lines (<[n:=current_player s]> (board s)) (current_player s) ->
  (after_queue (run (on_button_click index) s) =
     (after_queue s ++ [(500%Z, Computer_move)])%list <->
   game_mode s = "PvE" /\ current_player s = "X") /\
  (after_queue (run (on_button_click index) s) = after_queue s \/
   after_queue (run (on_button_click index) s) =
     (after_queue s ++ [(500%Z, Computer_move)])%list).
Proof.
  intros Hreach Hn Hc He Hl. pose proof (reachable_invariant s Hreach) as Hinv.
  apply contains_has_empty in He.
  rewrite <- has_line_eight_lines in Hl. apply wins_false in Hl.
  unfold run. rewrite (click_empty_settles s index n) by (done || apply Hinv).
  cbn [fst]. unfold settle.
  change (board (played n s)) with (<[n:=current_player s]> (board s)).
  change (current_player (played n s)) with (current_player s).
  rewrite Hl, He. cbn [negb]. simpl_app. unfold other.
  destruct (String.eqb_spec (game_mode s) "PvE") as [Em|Em];
    destruct (String.eqb_spec (current_player s) "X") as [Ep|Ep]; cbn.
  - split; [|by right]. done.
  - split; [|by left]. split; [|tauto].
    intros E. symmetry in E. destruct (snoc_neq_self _ _ E).
  - split; [|by left]. split; [|tauto].
    intros E. symmetry in E. destruct (snoc_neq_self _ _ E).
  - split; [|by left]. split; [|tauto].
    intros E. symmetry in E. destruct (snoc_neq_self _ _ E).
Qed.

Lemma timer_scheduled_iff_witness :
  reachable init /\ Py.norm_index 9 4 = Some 4 /\ board init !! 4 = Some "" /\
  has_empty (<[4:=current_player init]> (board init)) /\
  ~ eight_lines (<[4:=current_player init]> (board init)) (current_player init) /\
  after_queue (run (on_button_click 4) init) =
  (after_queue init ++ [(500%Z, Computer_move)])%list.
Proof.
  assert (has_empty (<[4:=current_player init]> (board init))) as He
    by (apply (proj1 (contains_has_empty _)); vm_compute; reflexivity).
  assert (~ eight_lines (<[4:=current_player init]> (board init))
            (current_player init)) as Hl.
  { intros H. apply has_line_eight_lines, wins_has_line in H.
    vm_compute in H. discriminate H. }
  split; [constructor|]. split; [reflexivity|]. split; [reflexivity|].
  split; [exact He|]. split; [exact Hl|].
  apply (proj2 (proj1 (timer_scheduled_iff init 4 4 reach_init eq_refl eq_refl
                         He Hl))).
  split; reflexivity.
Defined.

(** X7: the mode decides nothing but the timer: on an object with nine
    cells and nine buttons a click gives the same result, board, turn,
    button texts, status label and dialogs in whatever mode it runs. *)
Theorem click_ignores_mode (s : App) (index : Z) (mode : string) :
  well_formed s ->
  let s1 := run (on_button_click index) s in
  let s2 := run (on_button_click index) (with_game_mode mode s) in
  snd (on_button_click index (with_game_mode mode s)) = snd (on_button_click index s) /\
  board s2 = board s1 /\ current_player s2 = current_player s1 /\
  buttons s2 = buttons s1 /\ status_label s2 = status_label s1 /\
  shown s2 = shown s1 /\ game_mode s2 = mode.
Proof.
  intros Hwf. assert (well_formed (with_game_mode mode s)) as Hwf'
    by (destruct Hwf; by split).
  cbv zeta. unfold run. rewrite !on_button_click_cases by done.
  change (board (with_game_mode mode s)) with (board s).
  destruct (Py.norm_index 9 index) as [n|]; [|done].
  destruct (board s !! n) as [c|]; [|done].
  destruct (c =? ""); [|done]. cbn [fst snd]. unfold settle.
  change (board (played n (with_game_mode mode s))) with (board (played n s)).
  change (current_player (played n (with_game_mode mode s)))
    with (current_player (played n s)).
  destruct (wins _ _); [done|]. by destruct (negb _).
Qed.

Lemma click_ignores_mode_witness :
  well_formed x_about_to_win /\
  board (run (on_button_click 2) (with_game_mode "PvP" x_about_to_win)) =
  board (run (on_button_click 2) x_about_to_win).
Proof.
  assert (well_formed x_about_to_win) as Hwf by (split; vm_compute; reflexivity).
  split; [exact Hwf|].
  exact (proj1 (proj2 (click_ignores_mode x_about_to_win 2 "PvP" Hwf))).
Defined.

(** ** The candidates of the computer *)

(** X8: on a board without an Empty cell, of whatever length,
    [computer_move] returns without raising and changes nothing: it picks
    nothing, writes nothing and shows no dialog. *)
Theorem computer_move_full_board_noop (s : App) (r : nat) :
  ~ has_empty (board s) -> computer_move r s = (s, Ok tt).
Proof.
  intros Hfull. apply computer_move_full.
  destruct (available_moves (board s)) as [|i l] eqn:E; [done|].
  destruct Hfull. assert (In i (available_moves (board s))) as Hin
    by (rewrite E; by left).
  apply available_moves_In in Hin as [_ Hc].
  apply list_elem_of_In, list_elem_of_lookup. eauto.
Qed.

Lemma computer_move_full_board_noop_witness :
  ~ has_empty (board full_board) /\ computer_move 3 full_board = (full_board, Ok tt).
Proof.
  assert (~ has_empty (board full_board)) as Hfull.
  { intros H. apply contains_has_empty in H. vm_compute in H. discriminate H. }
  split; [exact Hfull|]. exact (computer_move_full_board_noop full_board 3 Hfull).
Defined.

Lemma available_from_lower {A} (p : Z * A -> bool) k (l : list A) i :
  In i (map fst (List.filter p (Py.enumerate_from k l))) -> (k <= i)%Z.
Proof.
  rewrite in_map_iff. intros ([j x] & <- & H). apply filter_In in H as [H _].
  by apply In_enumerate_from in H as [H _].
Qed.

Lemma available_from_sorted k (b : list string) :
  StronglySorted Z.lt
    (map fst (List.filter (fun ix => snd ix =? "") (Py.enumerate_from k b))).
Proof.
  revert k. induction b as [|x b IH]; intros k; simpl; [constructor|].
  destruct (x =? ""); simpl; [|apply IH]. constructor; [apply IH|].
  apply List.Forall_forall. intros i Hi. apply available_from_lower in Hi. lia.
Qed.

Lemma available_from_length k (b : list string) :
  length (map fst (List.filter (fun ix => snd ix =? "") (Py.enumerate_from k b))) =
  count_mark "" b.
Proof.
  unfold count_mark. revert k. induction b as [|x b IH]; intros k; [done|].
  cbn [Py.enumerate_from List.filter snd]. rewrite (String.eqb_sym x "").
  destruct ("" =? x); cbn [map length]; by rewrite IH.
Qed.

(** X9: the candidate moves are listed in increasing order, so none
    twice, and there are as many of them as Empty cells on the board. *)
Theorem available_moves_sorted_and_counted (b : list string) :
  StronglySorted Z.lt (available_moves b) /\
  NoDup (available_moves b) /\
  length (available_moves b) = count_mark "" b.
Proof.
  pose proof (available_from_sorted 0 b) as Hs.
  split; [exact Hs|]. split; [|apply available_from_length].
  unfold available_moves, Py.enumerate.
  induction Hs as [|i l _ IH Hall]; constructor; [|exact IH].
  intros Hin. apply list_elem_of_In in Hin.
  rewrite List.Forall_forall in Hall. specialize (Hall i Hin). lia.
Qed.

(** ** Timers that outlive their game *)

Lemma run_events_two e1 e2 s s1 s2 :
  dispatch e1 s = Some s1 -> dispatch e2 s1 = Some s2 ->
  run_events [e1; e2] s = Some s2.
Proof. intros H1 H2. cbn [run_events]. by rewrite H1, H2. Qed.

Lemma first_move_on_cleared_board r s :
  well_formed s -> board s = replicate 9 "" -> current_player s = "X" ->
  exists n, n < 9 /\ run (computer_move r) s = handed_over (played n s).
Proof.
  intros Hwf Hb Hp.
  assert (has_empty (board s)) as He by (rewrite Hb; by left).
  destruct (computer_move_settle r s Hwf He) as (n & Hc & _ & Hcm & Hclick).
  pose proof (lookup_lt_Some _ _ _ Hc) as Hlt. rewrite (wf_board _ Hwf) in Hlt.
  exists n. split; [done|]. unfold run. rewrite Hcm, Hclick. cbn [fst].
  unfold settle. simpl_app. rewrite Hb, Hp.
  do 9 (destruct n as [|n]; [reflexivity|]). lia.
Qed.

(** X10: [reset_game] cancels no pending timer.  When the Reset button is
    pressed while a timer is pending and that timer fires next, the
    computer writes an X into a cell of the cleared board and leaves the
    turn O to the human; the mode is as it was and no dialog is shown. *)
Theorem stale_timer_plays_X (s : App) (r : nat)
    (t : Z * callback) (rest : list (Z * callback)) :
  well_formed s -> after_queue s = t :: rest ->
  exists s2 n,
    run_events [Reset_clicked; Timer r] s = Some s2 /\ n < 9 /\
    board s2 = <[n:="X"]> (replicate 9 "") /\
    current_player s2 = "O" /\
    game_mode s2 = game_mode s /\ shown s2 = shown s.
Proof.
  intros Hwf Hq. destruct t as [ms []].
  destruct (first_move_on_cleared_board r (with_after_queue rest (cleared s)))
    as (n & Hn & Hrun); [destruct (well_formed_cleared s Hwf); by split|done..|].
  exists (run (computer_move r) (with_after_queue rest (cleared s))), n.
  split.
  { apply (run_events_two _ _ _ (cleared s)); [reflexivity|].
    cbn [dispatch]. simpl_app. by rewrite Hq. }
  rewrite Hrun. by simpl_app.
Qed.

Lemma stale_timer_plays_X_witness :
  well_formed waiting_for_computer /\
  after_queue waiting_for_computer = [(500%Z, Computer_move)] /\
  exists s2 n,
    run_events [Reset_clicked; Timer 6] waiting_for_computer = Some s2 /\
    n < 9 /\ board s2 = <[n:="X"]> (replicate 9 "") /\
    current_player s2 = "O".
Proof.
  assert (well_formed waiting_for_computer) as Hwf
    by (split; vm_compute; reflexivity).
  assert (after_queue waiting_for_computer = [(500%Z, Computer_move)]) as Hq
    by (vm_compute; reflexivity).
  split; [exact Hwf|]. split; [exact Hq|].
  destruct (stale_timer_plays_X waiting_for_computer 6 _ _ Hwf Hq)
    as (s2 & n & Hrun & Hn & Hb & Hp & _).
  exists s2, n. split; [exact Hrun|]. split; [exact Hn|]. split; [exact Hb|exact Hp].
Defined.

(** ** A round against the computer *)

(** X11: in mode PvE with no timer pending, when X writes into an Empty
    cell and the game goes on, the click schedules the computer and the
    timer, once it fires, answers with an O in another cell that was
    Empty; no timer is pending afterwards.  Either the board then holds
    both new marks and the turn is X again, or the O ended the game: the
    board is cleared, the turn is X and the dialog is the win of O or the
    draw. *)
Theorem computer_replies_with_O (s : App) (index : Z) (n r : nat) :
  reachable s -> game_mode s = "PvE" -> current_player s = "X" ->
  after_queue s = [] ->
  Py.norm_index 9 index = Some n -> board s !! n = Some "" ->
  has_empty (<[n:="X"]> (board s)) -> ~ has_line (<[n:="X"]> (board s)) "X" ->
  exists s2 k,
    run_events [Click index; Timer r] s = Some s2 /\
    k <> n /\ board s !! k = Some "" /\ after_queue s2 = [] /\
    current_player s2 = "X" /\
    (board s2 = <[k:="O"]> (<[n:="X"]> (board s)) /\ shown s2 = shown s \/
     board s2 = replicate 9 "" /\
     (shown s2 = (shown s ++ [win_dialog "O"])%list \/
      shown s2 = (shown s ++ [draw_dialog])%list)).
Proof.
  intros Hreach Hm Hp Hq Hn Hc He Hl.
  pose proof (reachable_invariant s Hreach) as Hinv.
  apply contains_has_empty in He. apply wins_false in Hl.
  assert (run (on_button_click index) s = handed_over (played n s)) as Hclick.
  { unfold run. rewrite (click_empty_settles s index n) by (done || apply Hinv).
    cbn [fst]. unfold settle. simpl_app. by rewrite Hp, Hl, He. }
  set (s1 := with_after_queue [] (handed_over (played n s))).
  assert (well_formed s1) as Hwf1.
  { destruct (well_formed_played n s (inv_wf _ Hinv)). by split. }
  assert (board s1 = <[n:="X"]> (board s)) as Hb1
    by (unfold s1; simpl_app; by rewrite Hp).
  assert (current_player s1 = "O") as Hp1
    by (unfold s1; simpl_app; by rewrite Hp).
  assert (has_empty (board s1)) as He1
    by (rewrite Hb1; by apply contains_has_empty).
  destruct (computer_move_settle r s1 Hwf1 He1) as (k & Hk & _ & Hcm & Hset).
  rewrite Hset in Hcm. rewrite Hb1 in Hk.
  assert (k <> n) as Hkn.
  { intros ->. rewrite list_lookup_insert_eq in Hk; [done|].
    by apply lookup_lt_Some in Hc. }
  rewrite list_lookup_insert_ne in Hk by done.
  exists (settle (played k s1)), k. split.
  { apply (run_events_two _ _ _ (handed_over (played n s)));
      [cbn [dispatch]; by rewrite Hclick|].
    cbn [dispatch].
    assert (after_queue (handed_over (played n s)) = [(500%Z, Computer_move)]) as ->
      by (simpl_app; by rewrite Hm, Hp, Hq).
    unfold run. fold s1. by rewrite Hcm. }
  split; [done|]. split; [done|].
  unfold settle. change (current_player (played k s1)) with (current_player s1).
  change (board (played k s1)) with (<[k:=current_player s1]> (board s1)).
  rewrite Hp1, Hb1.
  assert (shown s1 = shown s) as Hs1 by reflexivity.
  destruct (wins (<[k:="O"]> (<[n:="X"]> (board s))) "O"); [|destruct (negb _)];
    simpl_app.
  - split; [done|]. split; [done|]. right. split; [done|]. by left.
  - split; [done|]. split; [done|]. right. split; [done|]. by right.
  - rewrite Hp1, Hb1. split; [by rewrite andb_false_r|]. split; [done|]. by left.
Qed.

Lemma computer_replies_with_O_witness :
  reachable init /\ game_mode init = "PvE" /\ current_player init = "X" /\
  after_queue init = [] /\
  exists s2 k,
    run_events [Click 4; Timer 2] init = Some s2 /\
    k <> 4 /\ board init !! k = Some "" /\ after_queue s2 = [] /\
    current_player s2 = "X".
Proof.
  split; [constructor|]. split; [reflexivity|]. split; [reflexivity|].
  split; [reflexivity|].
  destruct (computer_replies_with_O init 4 4 2 reach_init eq_refl eq_refl eq_refl
              eq_refl eq_refl)
    as (s2 & k & Hrun & Hk & Hc & Hq & Hp & _).
  - apply (proj1 (contains_has_empty _)). vm_compute. reflexivity.
  - apply (proj1 (wins_false _ _)). vm_compute. reflexivity.
  - exists s2, k. split; [exact Hrun|]. split; [exact Hk|]. split; [exact Hc|].
    split; [exact Hq|exact Hp].
Defined.

(** ** Turn and reset *)

(** X12: [switch_player] never raises and always changes the player: X
    becomes O and every other string, O included, becomes X.  It announces
    the new player on the status label and touches nothing else; when the
    player is X or O, switching twice gives the same player back. *)
Theorem switch_player_changes_turn (s : App) :
  snd (switch_player s) = Ok tt /\
  (current_player s = "X" -> current_player (run switch_player s) = "O") /\
  (current_player s <> "X" -> current_player (run switch_player s) = "X") /\
  current_player (run switch_player s) <> current_player s /\
  status_label (run switch_player s) =
    current_player (run switch_player s) ++ "'s Turn" /\
  (board (run switch_player s) = board s /\
   buttons (run switch_player s) = buttons s /\
   game_mode (run switch_player s) = game_mode s /\
   shown (run switch_player s) = shown s /\
   after_queue (run switch_player s) = after_queue s) /\
  (current_player s = "X" \/ current_player s = "O" ->
   current_player (run switch_player (run switch_player s)) = current_player s).
Proof.
  unfold run, switch_player, bind, get, modify, status_label_config.
  destruct (String.eqb_spec (current_player s) "X") as [E|E]; cbn.
  - rewrite E. repeat split; auto; try discriminate. intros H. by destruct H.
  - repeat split; auto; try done. intros [H|H]; [done|]. by rewrite H.
Qed.

Lemma switch_player_changes_turn_witness :
  current_player x_about_to_win = "X" /\
  current_player (run switch_player x_about_to_win) = "O" /\
  current_player (run switch_player (run switch_player x_about_to_win)) =
  current_player x_about_to_win.
Proof.
  assert (current_player x_about_to_win = "X") as H by (vm_compute; reflexivity).
  split; [exact H|]. split.
  - exact (proj1 (proj2 (switch_player_changes_turn x_about_to_win)) H).
  - exact (proj2 (proj2 (proj2 (proj2 (proj2 (proj2
             (switch_player_changes_turn x_about_to_win)))))) (or_introl H)).
Defined.

(** X13: [reset_game] blanks every button, whatever their number, and
    puts "X's Turn" on the status label; it keeps the dialogs shown so far
    and cancels no pending timer; resetting twice is resetting once. *)
Theorem reset_game_display (s : App) :
  buttons (run reset_game s) = replicate (length (buttons s)) "" /\
  status_label (run reset_game s) = "X's Turn" /\
  shown (run reset_game s) = shown s /\
  after_queue (run reset_game s) = after_queue s /\
  run reset_game (run reset_game s) = run reset_game s.
Proof.
  assert (forall l : list string, map (fun _ => "") l = replicate (length l) "") as Hmap.
  { induction l as [|x l IH]; [done|]. simpl. by rewrite IH. }
  unfold run. rewrite !reset_game_cleared. cbn [fst]. unfold cleared. simpl_app.
  split; [apply Hmap|]. do 3 (split; [reflexivity|]). f_equal.
  rewrite !Hmap, length_replicate. clear. induction (length (buttons s)); [done|].
  simpl. by f_equal.
Qed.

(** ** The grid and the lines *)

(** X14: [setup_ui] creates nine buttons; the k-th button of
    [self.buttons] clicks cell k; every place of the 3 x 3 grid holds a
    button, the one that clicks cell 3 * row + column, and no two buttons
    share a place. *)
Theorem setup_ui_grid_layout :
  length setup_ui_grid = length (buttons init) /\
  (forall k g, setup_ui_grid !! k = Some g -> command_index g = Z.of_nat k) /\
  (forall r c, (0 <= r < 3)%Z -> (0 <= c < 3)%Z ->
     exists g, In g setup_ui_grid /\ grid_row g = r /\ grid_column g = c /\
               command_index g = (3 * r + c)%Z) /\
  (forall g g', In g setup_ui_grid -> In g' setup_ui_grid ->
     grid_row g = grid_row g' -> grid_column g = grid_column g' -> g = g').
Proof.
  split; [reflexivity|]. split; [|split].
  - intros k g H. do 9 (destruct k as [|k]; [by inversion H|]). done.
  - intros r c Hr Hc.
    assert (r = 0 \/ r = 1 \/ r = 2)%Z as Hr' by lia.
    assert (c = 0 \/ c = 1 \/ c = 2)%Z as Hc' by lia.
    exists {| grid_row := r; grid_column := c; command_index := (3 * r + c)%Z |}.
    split; [|done]. vm_compute.
    destruct Hr' as [-> | [-> | ->]]; destruct Hc' as [-> | [-> | ->]]; tauto.
  - intros g g' Hg Hg'. vm_compute in Hg, Hg'.
    repeat (destruct Hg as [<-|Hg]); try destruct Hg;
      repeat (destruct Hg' as [<-|Hg']); try destruct Hg';
      cbn; intros; try reflexivity; discriminate.
Qed.

Lemma setup_ui_grid_layout_witness :
  exists g, In g setup_ui_grid /\ grid_row g = 1%Z /\ grid_column g = 2%Z /\
            command_index g = 5%Z.
Proof.
  apply (proj1 (proj2 (proj2 setup_ui_grid_layout)) 1%Z 2%Z); lia.
Defined.

Lemma alignedb_aligned a b c : alignedb a b c = true <-> aligned a b c.
Proof.
  unfold alignedb, aligned.
  rewrite !orb_true_iff, !andb_true_iff, !Z.eqb_eq. tauto.
Qed.

Lemma in_combos_In a b c : in_combos a b c = true <-> In (a, b, c) winning_combos.
Proof.
  unfold in_combos. rewrite existsb_exists. split.
  - intros ([[x y] z] & Hin & H).
    rewrite !andb_true_iff, !Z.eqb_eq in H. destruct H as [[-> ->] ->]. done.
  - intros H. exists (a, b, c). split; [done|]. by rewrite !Z.eqb_refl.
Qed.

Lemma py_range_In (n : nat) i : In i (py_range n) <-> (0 <= i < Z.of_nat n)%Z.
Proof.
  unfold py_range. rewrite in_map_iff. split.
  - intros (k & <- & H). apply in_seq in H. lia.
  - intros H. exists (Z.to_nat i). split; [lia|]. apply in_seq. lia.
Qed.

(** X15: the eight combinations of [check_winner] are the lines of the
    grid that [setup_ui] lays out, no more and no fewer: each combination
    lists three cells in increasing order that lie in one row, in one
    column or on one of the two diagonals, and every three cells of the
    grid that do are one of the combinations; no combination is listed
    twice. *)
Theorem winning_combos_are_grid_lines :
  (forall a b c, In (a, b, c) winning_combos ->
     (0 <= a < b)%Z /\ (b < c < 9)%Z /\ aligned a b c) /\
  (forall a b c, (0 <= a < b)%Z -> (b < c < 9)%Z -> aligned a b c ->
     In (a, b, c) winning_combos) /\
  NoDup winning_combos.
Proof.
  split; [|split].
  - intros a b c H. rewrite <- alignedb_aligned. vm_compute in H.
    repeat (destruct H as [[= <- <- <-]|H]; [by vm_compute|]). destruct H.
  - intros a b c Hab Hbc Hal. apply in_combos_In. apply alignedb_aligned in Hal.
    assert (forallb (fun a => forallb (fun b => forallb (fun c =>
              implb ((a <? b) && (b <? c))%Z
                    (implb (alignedb a b c) (in_combos a b c)))
              (py_range 9)) (py_range 9)) (py_range 9) = true) as Hall
      by (vm_compute; reflexivity).
    rewrite forallb_forall in Hall.
    specialize (Hall a (proj2 (py_range_In 9 a) ltac:(lia))).
    rewrite forallb_forall in Hall.
    specialize (Hall b (proj2 (py_range_In 9 b) ltac:(lia))).
    rewrite forallb_forall in Hall.
    specialize (Hall c (proj2 (py_range_In 9 c) ltac:(lia))).
    rewrite Hal in Hall.
    destruct (Z.ltb_spec a b); [|lia]. destruct (Z.ltb_spec b c); [|lia].
    exact Hall.
  - unfold winning_combos.
    repeat (constructor;
            [rewrite list_elem_of_In; cbn; intros H;
             repeat (destruct H as [H|H]; [discriminate H|]); destruct H|]).
    constructor.
Qed.

Lemma winning_combos_are_grid_lines_witness :
  aligned 2 4 6 /\ In (2, 4, 6)%Z winning_combos.
Proof.
  assert (aligned 2 4 6) as Hal by (apply alignedb_aligned; vm_compute; reflexivity).
  split; [exact Hal|].
  apply (proj1 (proj2 winning_combos_are_grid_lines) 2%Z 4%Z 6%Z); [lia|lia|exact Hal].
Defined.

(** * Dialogs that stay open *)

(** ** The handlers under a dialog *)

Lemma after_move_settle_under (wait : M unit) s :
  length (board s) = 9 ->
  (let* won := check_winner (current_player s) in
   if won then
     showinfo "Game Over" ("Player " ++ current_player s ++ " wins!") >>
     wait >>
     reset_game
   else
     let* b := get board in
     if negb (Py.contains "" b) then
       showinfo "Game Over" "It's a Draw!" >>
       wait >>
       reset_game
     else
       switch_player >>
       let* mode := get game_mode in
       let* q := get current_player in
       if (mode =? "PvE") && (q =? "O") then root_after 500 Computer_move
       else ret tt) s
  = settle_under wait s.
Proof.
  intros Hlen. rewrite (bind_ok _ _ _ _ _ (check_winner_wins _ s Hlen)).
  unfold settle_under. destruct (wins (board s) (current_player s)); [reflexivity|].
  unfold bind at 1, get.
  destruct (negb (Py.contains "" (board s))); [reflexivity|].
  unfold handed_over, other, switch_player, bind, get, modify, status_label_config,
    root_after, ret.
  destruct (current_player s =? "X"); simpl;
    destruct (game_mode s =? "PvE"); reflexivity.
Qed.

Lemma on_button_click_under_cases (wait : M unit) index s :
  well_formed s ->
  on_button_click_under wait index s =
  match Py.norm_index 9 index with
  | None => (s, Raise IndexError)
  | Some n =>
      match board s !! n with
      | Some c => if c =? "" then settle_under wait (played n s) else (s, Ok tt)
      | None => (s, Raise IndexError)
      end
  end.
Proof.
  intros [Hb Ht]. unfold on_button_click_under.
  destruct (Py.norm_index 9 index) as [n|] eqn:Hn.
  - assert (Hn' := Hn). rewrite <- Hb in Hn'.
    destruct (getitem_norm _ _ _ Hn') as (c & Hc & Hget). rewrite Hc.
    rewrite (bind_ok _ _ s s c) by (unfold board_getitem, lift; by rewrite Hget).
    destruct (c =? ""); [|reflexivity]. cbn [negb].
    rewrite (bind_ok _ _ s s (current_player s)) by reflexivity.
    rewrite (bind_ok _ _ _ _ _ (board_setitem_norm index n _ s Hn')).
    rewrite (bind_ok _ _ _ (played n s) tt).
    + apply (after_move_settle_under wait (played n s)). cbn.
      by rewrite length_insert.
    + rewrite (button_config_norm index n); [reflexivity|]. cbn. by rewrite Ht.
  - apply bind_raise. unfold board_getitem, lift.
    rewrite getitem_outside; [done|]. by rewrite Hb.
Qed.

(** A dialog closed before any timer fires: the handlers of the first
    part. *)
Lemma on_button_click_under_dismissed index s :
  well_formed s ->
  on_button_click_under (dialog_open Dismissed) index s = on_button_click index s.
Proof.
  intros Hwf. rewrite on_button_click_under_cases, on_button_click_cases by done.
  destruct (Py.norm_index 9 index) as [n|]; [|done].
  destruct (board s !! n) as [c|]; [|done].
  destruct (c =? ""); [|done]. unfold settle_under, settle.
  destruct (wins _ _); [reflexivity|]. by destruct (negb _).
Qed.

Lemma computer_move_under_click (wait : M unit) r s :
  available_moves (board s) <> [] ->
  exists i, In i (available_moves (board s)) /\
            computer_move_under wait r s = on_button_click_under wait i s.
Proof.
  intros Hne. destruct (choice_In r _ Hne) as (i & Hc & Hin).
  exists i. split; [done|].
  unfold computer_move_under. rewrite (bind_ok _ _ s s (board s)) by reflexivity.
  destruct (available_moves (board s)) eqn:E; [done|].
  apply bind_ok. unfold lift. by rewrite Hc.
Qed.

Lemma computer_move_under_full (wait : M unit) r s :
  available_moves (board s) = [] -> computer_move_under wait r s = (s, Ok tt).
Proof.
  intros E. unfold computer_move_under.
  rewrite (bind_ok _ _ s s (board s)) by reflexivity. by rewrite E.
Qed.

(** ** What survives a dialog *)

Lemma sound_cleared s : sound s -> sound (cleared s).
Proof. intros [Hwf Hq]. split; [by apply well_formed_cleared|done]. Qed.

Lemma sound_then_reset (wait : M unit) s :
  (forall s0, sound s0 -> sound (run wait s0)) ->
  sound s -> sound (run (wait >> reset_game) s).
Proof.
  intros Hwait Hs. specialize (Hwait s Hs). unfold run, bind in *.
  destruct (wait s) as [s' [[]|e]]; cbn [fst] in *; [|done].
  rewrite reset_game_cleared. by apply sound_cleared.
Qed.

Lemma sound_settle_under (wait : M unit) n s :
  (forall s0, sound s0 -> sound (run wait s0)) ->
  sound s -> sound (fst (settle_under wait (played n s))).
Proof.
  intros Hwait [Hwf Hq].
  assert (forall l, sound (with_shown l (played n s))) as Hobj.
  { intros l. split; [|done]. destruct (well_formed_played n s Hwf). by split. }
  unfold settle_under. destruct (wins _ _); [by apply sound_then_reset|].
  destruct (negb _); [by apply sound_then_reset|]. cbn [fst]. split.
  - destruct (well_formed_played n s Hwf). by split.
  - simpl_app. destruct (_ && _); [|done].
    apply Forall_app. split; [done|]. by constructor.
Qed.

Lemma sound_on_button_click_under (wait : M unit) index s :
  (forall s0, sound s0 -> sound (run wait s0)) ->
  sound s -> sound (run (on_button_click_under wait index) s).
Proof.
  intros Hwait Hs. unfold run. rewrite on_button_click_under_cases by apply Hs.
  destruct (Py.norm_index 9 index) as [n|]; [|done].
  destruct (board s !! n) as [c|]; [|done].
  destruct (c =? ""); [|done]. by apply sound_settle_under.
Qed.

Lemma sound_computer_move_under (wait : M unit) r s :
  (forall s0, sound s0 -> sound (run wait s0)) ->
  sound s -> sound (run (computer_move_under wait r) s).
Proof.
  intros Hwait Hs. destruct (available_moves (board s)) eqn:E.
  - unfold run. by rewrite computer_move_under_full.
  - destruct (computer_move_under_click wait r s) as (i & _ & Hcm); [by rewrite E|].
    unfold run. rewrite Hcm. by apply sound_on_button_click_under.
Qed.

Lemma sound_pop s ms f rest :
  sound s -> after_queue s = (ms, f) :: rest -> sound (with_after_queue rest s).
Proof.
  intros [[Hb Ht] Hq] E. split; [by split|]. simpl_app.
  rewrite E in Hq. by inversion Hq.
Qed.

Lemma sound_dialog_open d s : sound s -> sound (run (dialog_open d) s).
Proof.
  revert s. induction d as [|r inner IHinner next IHnext]; intros s Hs; [done|].
  cbn [dialog_open]. unfold run, bind, serve_timer.
  destruct (after_queue s) as [|[ms []] rest] eqn:E.
  - by apply IHnext.
  - apply IHnext. apply sound_computer_move_under; [exact IHinner|].
    by apply (sound_pop s ms Computer_move).
Qed.

(** A dialog never passes an exception on to the handler that opened
    it. *)
Lemma dialog_open_returns d s : snd (dialog_open d s) = Ok tt.
Proof.
  revert s. induction d as [|r inner _ next IH]; intros s; [done|].
  cbn [dialog_open]. unfold bind, serve_timer.
  destruct (after_queue s) as [|[ms []] rest]; apply IH.
Qed.

Lemma dialog_then_reset d s :
  (dialog_open d >> reset_game) s = (cleared (run (dialog_open d) s), Ok tt).
Proof.
  pose proof (dialog_open_returns d s) as H. unfold bind, run.
  destruct (dialog_open d s) as [s' [[]|e]]; [reflexivity|discriminate H].
Qed.

Lemma invariant_after_dialog d s :
  sound s ->
  invariant (run (dialog_open d >> reset_game) s) /\
  consistent (run (dialog_open d >> reset_game) s).
Proof.
  intros Hs. unfold run. rewrite dialog_then_reset. cbn [fst].
  destruct (sound_dialog_open d s Hs) as [Hwf Hq]. split.
  - by apply invariant_cleared.
  - apply consistent_cleared; [apply Hwf|done].
Qed.

Lemma invariant_on_button_click_under d index s :
  invariant s -> consistent s ->
  invariant (run (on_button_click_under (dialog_open d) index) s) /\
  consistent (run (on_button_click_under (dialog_open d) index) s).
Proof.
  intros Hinv Hcon. unfold run.
  rewrite on_button_click_under_cases by apply Hinv.
  destruct (Py.norm_index 9 index) as [n|]; [|done].
  destruct (board s !! n) as [c|] eqn:Hc; [|done].
  destruct (String.eqb_spec c ""); [|done]. subst c.
  assert (forall l, sound (with_shown l (played n s))) as Hobj.
  { intros l. split; [|apply Hcon].
    destruct (well_formed_played n s (inv_wf _ Hinv)). by split. }
  unfold settle_under.
  change (current_player (played n s)) with (current_player s).
  destruct (wins _ _) eqn:Hw; [by apply invariant_after_dialog|].
  destruct (Py.contains _ _) eqn:He; cbn [negb fst].
  - split; [by apply invariant_handed_over|by apply consistent_handed_over].
  - by apply invariant_after_dialog.
Qed.

Lemma invariant_computer_move_under d r s :
  invariant s -> consistent s ->
  invariant (run (computer_move_under (dialog_open d) r) s) /\
  consistent (run (computer_move_under (dialog_open d) r) s).
Proof.
  intros Hinv Hcon. destruct (available_moves (board s)) eqn:E.
  - unfold run. by rewrite computer_move_under_full.
  - destruct (computer_move_under_click (dialog_open d) r s) as (i & _ & Hcm);
      [by rewrite E|].
    unfold run. rewrite Hcm. by apply invariant_on_button_click_under.
Qed.

Lemma invariant_modal_dispatch e s s' :
  invariant s -> consistent s -> modal_dispatch e s = Some s' ->
  invariant s' /\ consistent s'.
Proof.
  intros Hinv Hcon. pose proof (wf_buttons _ (inv_wf _ Hinv)) as Ht.
  destruct e as [index d| |mode d|r d]; simpl.
  - intros [= <-]. by apply invariant_on_button_click_under.
  - intros [= <-]. split; [apply invariant_cleared, Hinv|].
    apply consistent_cleared; [done|apply Hcon].
  - intros [= <-].
    apply (invariant_after_dialog d
             (with_shown (shown s ++ [("Mode Changed", "Game Mode set to: " ++ mode)])
                (with_game_mode mode s))).
    split; [|apply Hcon]. destruct (inv_wf _ Hinv). by split.
  - destruct (after_queue s) as [|[ms []] rest] eqn:Eq; [done|]. intros [= <-].
    apply invariant_computer_move_under.
    + by apply (invariant_ext s).
    + destruct Hcon as [Hd Hs Hc Hq]. split; simpl_app; try done.
      rewrite Eq in Hq. by inversion Hq.
Qed.

Lemma modal_reachable_invariant s :
  modal_reachable s -> invariant s /\ consistent s.
Proof.
  induction 1 as [|s e s' _ [Hinv Hcon] Hd].
  - split; [apply invariant_init|]. split; simpl_app; try done.
    by apply Forall_replicate; left.
  - by apply (invariant_modal_dispatch e s).
Qed.

(** ** Every run of the first part is a run with dialogs closed at once *)

Lemma computer_move_under_dismissed r s :
  well_formed s ->
  computer_move_under (dialog_open Dismissed) r s = computer_move r s.
Proof.
  intros Hwf. unfold computer_move_under, computer_move.
  rewrite !(bind_ok _ _ s s (board s)) by reflexivity.
  destruct (available_moves (board s)) as [|i l]; [done|].
  unfold bind, lift. destruct (Py.choice r (i :: l)); [|done].
  by apply on_button_click_under_dismissed.
Qed.

Lemma reachable_modal_reachable s : reachable s -> modal_reachable s.
Proof.
  induction 1 as [|s e s' Hs IH Hd]; [constructor|].
  pose proof (inv_wf _ (reachable_invariant s Hs)) as Hwf.
  destruct e as [index| |mode|r]; cbn [dispatch] in Hd.
  - apply (modal_step s (Click_then index Dismissed)); [done|].
    cbn [modal_dispatch]. unfold run.
    by rewrite on_button_click_under_dismissed.
  - by apply (modal_step s Reset_then).
  - by apply (modal_step s (Mode_then mode Dismissed)).
  - apply (modal_step s (Timer_then r Dismissed)); [done|].
    cbn [modal_dispatch]. destruct (after_queue s) as [|[ms []] rest]; [done|].
    unfold run in *. rewrite computer_move_under_dismissed; [done|].
    destruct Hwf. by split.
Qed.

(** ** Balance of the marks *)



Lemma modal_reachable_after_fourth_o : modal_reachable after_fourth_o.
Proof.
  apply (modal_step o_about_to_win
           (Click_then 5 (Timer_fires 0 Dismissed Dismissed)));
    [apply reachable_modal_reachable, reachable_play|reflexivity].
Qed.


(** ** The board between callbacks *)

(** X3: whatever timers fire while dialogs are open, whenever no callback
    is running the board has nine cells, each one Empty, X or O, and it
    is not finished: some cell is Empty and neither mark has a line. *)
Theorem board_cells_are_marks (s : App) :
  modal_reachable s ->
  length (board s) = 9 /\
  Forall (fun c => c = "" \/ c = "X" \/ c = "O") (board s) /\
  has_empty (board s) /\
  ~ eight_lines (board s) "X" /\ ~ eight_lines (board s) "O".
Proof.
  intros Hs.
  destruct (modal_reachable_invariant s Hs) as [[[Hb _] _ HX HO He _] Hcon].
  rewrite <- !has_line_eight_lines. repeat split; try done. apply Hcon.
Qed.

Lemma board_cells_are_marks_witness :
  modal_reachable after_fourth_o /\
  length (board after_fourth_o) = 9 /\
  Forall (fun c => c = "" \/ c = "X" \/ c = "O") (board after_fourth_o) /\
  has_empty (board after_fourth_o) /\
  ~ eight_lines (board after_fourth_o) "X" /\
  ~ eight_lines (board after_fourth_o) "O".
Proof.
  split; [apply modal_reachable_after_fourth_o|].
  apply board_cells_are_marks, modal_reachable_after_fourth_o.
Defined.
